(** * mgmterror: NETCONF / YANG / Vyatta management errors

    A shallow embedding of the Go package [mgmterror] (mgmterror.go,
    ncerror.go, yangerror.go, vyerror.go, mgmterrorlist.go) and the
    properties of its specification.

    Conventions of the embedding.
    - Go strings are [string] (sequences of bytes).
    - The unsigned enumerations ([errtype], [ncerrtag], [yerrtag], ...)
      are [N] with one named constant per Go constant; a Go [map] is a
      [gmap] and a missing key is [None].
    - A Go function returning [error] returns [result]; a Go run-time
      panic (index out of range, [panic(err)]) is the value [Panic].
    - A wrapper type such as [*InUseProtocolError] embeds a [*MgmtError];
      all wrapper types are modelled by [TypedError], a record kind plus
      the embedded record.
    - [encoding/json] and [encoding/xml] are libraries outside the
      package.  They are modelled at the level of documents: a JSON value
      ([json]) and an XML element tree ([xml_node]) whose leaves are Go
      strings, written and read back unchanged.  What the package itself
      contributes (struct tags, [omitempty], the custom marshalers and
      unmarshalers) is modelled function by function. *)

From Stdlib Require Import String Ascii List ZArith NArith Lia Bool.
From stdpp Require Import base option list gmap strings fin_maps sorting.
Import ListNotations.
Local Open Scope string_scope.
Local Open Scope list_scope.
Local Open Scope N_scope.
Set Warnings "-register-all,-clear-no-such-hyp".

(** ** Results of Go calls *)

(** The [error] values the package creates with [errors.New], and the
    failures reported by the decoding libraries. *)
Inductive goerr : Type :=
  | invalid_error_tag        (* "invalid error tag" *)
  | invalid_error_type       (* "invalid error type" *)
  | invalid_error_tag_type   (* "invalid error type for tag" *)
  | invalid_error_app_tag    (* "invalid error app tag" (declared, never returned) *)
  | malformed_error_info_tag (* "malformed error-info tag" *)
  | decode_error.            (* an error of encoding/json or encoding/xml *)

Inductive result (A : Type) : Type :=
  | OK (a : A)
  | Err (e : goerr)
  | Panic.
Arguments OK {A} a.
Arguments Err {A} e.
Arguments Panic {A}.

(** Sequencing of calls: the first failure is returned ([x ← r; k]). *)
#[global] Instance result_bind : MBind result := fun A B k r =>
  match r with
  | OK a => k a
  | Err e => Err e
  | Panic => Panic
  end.
#[global] Instance result_ret : MRet result := fun A a => OK a.
#[global] Instance result_fmap : FMap result := fun A B f r =>
  match r with
  | OK a => OK (f a)
  | Err e => Err e
  | Panic => Panic
  end.

#[global] Instance goerr_eq_dec : EqDecision goerr.
Proof. solve_decision. Defined.

(** ** The string functions of Go's [strings] package that the code calls *)

Module strings.

(** [strings.Split(s, sep)] for a one-byte separator: the pieces between
    the occurrences of [sep]; a string without [sep] is returned whole,
    the empty string gives one empty piece. *)
Fixpoint Split (s : string) (sep : ascii) : list string :=
  match s with
  | EmptyString => [EmptyString]
  | String c s' =>
      let r := Split s' sep in
      if Ascii.eqb c sep then EmptyString :: r
      else match r with
           | h :: t => String c h :: t
           | [] => [String c EmptyString]
           end
  end.

(** [strings.Join(elems, sep)]. *)
Fixpoint Join (elems : list string) (sep : string) : string :=
  match elems with
  | [] => ""
  | [e] => e
  | e :: rest => e +:+ sep +:+ Join rest sep
  end.

(** [strings.HasPrefix] and [strings.TrimPrefix]. *)
Fixpoint TrimPrefix_opt (s p : string) : option string :=
  match p, s with
  | EmptyString, _ => Some s
  | String _ _, EmptyString => None
  | String b p', String a s' =>
      if Ascii.eqb a b then TrimPrefix_opt s' p' else None
  end.

Definition TrimPrefix (s p : string) : string :=
  match TrimPrefix_opt s p with Some r => r | None => s end.

Definition is_lower (c : ascii) : bool :=
  (97 <=? N_of_ascii c) && (N_of_ascii c <=? 122).
Definition is_upper (c : ascii) : bool :=
  (65 <=? N_of_ascii c) && (N_of_ascii c <=? 90).
Definition is_digit (c : ascii) : bool :=
  (48 <=? N_of_ascii c) && (N_of_ascii c <=? 57).

(** [isSeparator]: ASCII letters, digits and underscore are not
    separators, every other ASCII character is.  Bytes above 0x7F
    belong to multi-byte runes, which Go classifies with the Unicode
    tables; here they are not separators and are copied unchanged. *)
Definition isSeparator (c : ascii) : bool :=
  if N_of_ascii c <=? 127
  then negb (is_digit c || is_lower c || is_upper c || Ascii.eqb c "_"%char)
  else false.

(** [unicode.ToTitle] on an ASCII character. *)
Definition ToTitle (c : ascii) : ascii :=
  if is_lower c then ascii_of_N (N_of_ascii c - 32) else c.

(** [strings.Title]: the closure remembers the previous character
    (initially a space) and maps a character to title case when the
    previous one is a separator. *)
Fixpoint Title_from (prev : ascii) (s : string) : string :=
  match s with
  | EmptyString => EmptyString
  | String c s' =>
      String (if isSeparator prev then ToTitle c else c) (Title_from c s')
  end.

Definition Title (s : string) : string := Title_from " "%char s.

End strings.

(** ** Constants of mgmterror.go *)

Definition netconf_module : string := "ietf-netconf".
Definition netconf_namespace : string := "urn:ietf:params:xml:ns:netconf:base:1.0".
Definition yang_module : string := "ietf-yang".
Definition yang_namespace : string := "urn:ietf:params:xml:ns:yang:1".
Definition vyattaModule : string := "vyatta-yang".
Definition VyattaNamespace : string := "urn:vyatta.com:mgmt:error:1".
Definition error_msg_separator : string := ": ".

(** The double quote character, for the canned messages that quote a word. *)
Definition dquote : string := String (ascii_of_N 34) EmptyString.

(** ** errtype (RFC6241 Sect 4.3) *)

Definition errtype := N.
Definition transport : errtype := 0.
Definition rpc : errtype := 1.
Definition protocol : errtype := 2.
Definition application : errtype := 3.

Definition errtypemap : gmap string errtype :=
  list_to_map [("transport", transport); ("rpc", rpc);
               ("protocol", protocol); ("application", application)].

(** [String()] methods range over a map for the key whose value is the
    receiver; the values of these maps are pairwise distinct, so the
    result does not depend on the iteration order. *)
Fixpoint key_of (kvs : list (string * N)) (v : N) : string :=
  match kvs with
  | [] => ""
  | (s, w) :: rest => if N.eqb v w then s else key_of rest v
  end.

Definition map_key_of (m : gmap string N) (v : N) : string :=
  key_of (map_to_list m) v.

Definition errtype_String (t : errtype) : string := map_key_of errtypemap t.

(** ** The error record *)

(** [xml.Name]. *)
Record xml_Name : Type := mkName { Space : string; Local : string }.

(** [MgmtErrorInfoTag]. *)
Record MgmtErrorInfoTag : Type := mkInfoTag { XMLName : xml_Name; Value : string }.

Definition NewMgmtErrorInfoTag (ns name value : string) : MgmtErrorInfoTag :=
  {| XMLName := {| Space := ns; Local := name |}; Value := value |}.

Definition MgmtErrorInfo := list MgmtErrorInfoTag.

(** [MgmtError]. *)
Record MgmtError : Type := mkMgmtErrorRec {
  Name : xml_Name;        (* field XMLName, json:"-" *)
  Typ : string;           (* error-type *)
  Tag : string;           (* error-tag *)
  Severity : string;      (* error-severity *)
  AppTag : string;        (* error-app-tag,omitempty *)
  Path : string;          (* error-path,omitempty *)
  Message : string;       (* error-message,omitempty *)
  Info : MgmtErrorInfo    (* error-info,omitempty *)
}.

#[global] Instance xml_Name_eq_dec : EqDecision xml_Name.
Proof. solve_decision. Defined.
#[global] Instance MgmtErrorInfoTag_eq_dec : EqDecision MgmtErrorInfoTag.
Proof. solve_decision. Defined.
#[global] Instance MgmtError_eq_dec : EqDecision MgmtError.
Proof. solve_decision. Defined.

Definition zeroMgmtError : MgmtError :=
  {| Name := mkName "" ""; Typ := ""; Tag := ""; Severity := ""; AppTag := "";
     Path := ""; Message := ""; Info := [] |}.

Definition setXMLName (e : MgmtError) : MgmtError :=
  {| Name := {| Space := netconf_namespace; Local := "rpc-error" |};
     Typ := Typ e; Tag := Tag e; Severity := Severity e; AppTag := AppTag e;
     Path := Path e; Message := Message e; Info := Info e |}.

Definition newMgmtError : MgmtError := setXMLName zeroMgmtError.

(** Assignments to the exported fields after construction. *)
Definition set_Message (e : MgmtError) (m : string) : MgmtError :=
  {| Name := Name e; Typ := Typ e; Tag := Tag e; Severity := Severity e;
     AppTag := AppTag e; Path := Path e; Message := m; Info := Info e |}.
Definition set_Path (e : MgmtError) (p : string) : MgmtError :=
  {| Name := Name e; Typ := Typ e; Tag := Tag e; Severity := Severity e;
     AppTag := AppTag e; Path := p; Message := Message e; Info := Info e |}.
Definition set_Info (e : MgmtError) (i : MgmtErrorInfo) : MgmtError :=
  {| Name := Name e; Typ := Typ e; Tag := Tag e; Severity := Severity e;
     AppTag := AppTag e; Path := Path e; Message := Message e; Info := i |}.

Fixpoint FindMgmtErrorTag (e : MgmtErrorInfo) (ns name : string) : string :=
  match e with
  | [] => ""
  | t :: rest =>
      if String.eqb (Space (XMLName t)) ns && String.eqb (Local (XMLName t)) name
      then Value t
      else FindMgmtErrorTag rest ns name
  end.

(** [MgmtError.Error]. *)
Definition MgmtError_Error (e : MgmtError) : string :=
  strings.Title (Severity e) +:+ error_msg_separator
  +:+ (if String.eqb (Path e) "" then "" else Path e +:+ error_msg_separator)
  +:+ (if String.eqb (Message e) "" then "" else Message e).

(** ** The typed wrappers

    Every wrapper type is a struct embedding a [*MgmtError]; [kind] names
    the Go type, [rec] is the embedded record. *)

Inductive ErrKind : Type :=
  | InUseProtocolError
  | InUseApplicationError
  | InvalidValueProtocolError
  | InvalidValueApplicationError
  | TooBigTransportError
  | TooBigRpcError
  | TooBigProtocolError
  | TooBigApplicationError
  | MissingAttrRpcError
  | MissingAttrProtocolError
  | MissingAttrApplicationError
  | BadAttrRpcError
  | BadAttrProtocolError
  | BadAttrApplicationError
  | UnknownAttrRpcError
  | UnknownAttrProtocolError
  | UnknownAttrApplicationError
  | MissingElementProtocolError
  | MissingElementApplicationError
  | BadElementProtocolError
  | BadElementApplicationError
  | UnknownElementProtocolError
  | UnknownElementApplicationError
  | UnknownNamespaceProtocolError
  | UnknownNamespaceApplicationError
  | AccessDeniedProtocolError
  | AccessDeniedApplicationError
  | LockDeniedError
  | ResourceDeniedTransportError
  | ResourceDeniedRpcError
  | ResourceDeniedProtocolError
  | ResourceDeniedApplicationError
  | RollbackFailedProtocolError
  | RollbackFailedApplicationError
  | DataExistsError
  | DataMissingError
  | OperationNotSupportedProtocolError
  | OperationNotSupportedApplicationError
  | OperationFailedProtocolError
  | OperationFailedApplicationError
  | OperationFailedRpcError
  | MalformedMessageError
  | NonUniqueError
  | TooManyElementsError
  | TooFewElementsError
  | MustViolationError
  | InstanceRequiredError
  | LeafrefMismatchError
  | MissingChoiceError
  | InsertFailedError
  | ExecError
  | PathAmbiguousError.

#[global] Instance ErrKind_eq_dec : EqDecision ErrKind.
Proof. solve_decision. Defined.

Record TypedError : Type := mkTyped { kind : ErrKind; rec : MgmtError }.

#[global] Instance TypedError_eq_dec : EqDecision TypedError.
Proof. solve_decision. Defined.

(** The [create...] functions wrap a record in their wrapper type. *)
Definition createInUseProtocolError (err : MgmtError) : TypedError :=
  {| kind := InUseProtocolError; rec := err |}.
Definition createInUseApplicationError (err : MgmtError) : TypedError :=
  {| kind := InUseApplicationError; rec := err |}.
Definition createInvalidValueProtocolError (err : MgmtError) : TypedError :=
  {| kind := InvalidValueProtocolError; rec := err |}.
Definition createInvalidValueApplicationError (err : MgmtError) : TypedError :=
  {| kind := InvalidValueApplicationError; rec := err |}.
Definition createTooBigTransportError (err : MgmtError) : TypedError :=
  {| kind := TooBigTransportError; rec := err |}.
Definition createTooBigRpcError (err : MgmtError) : TypedError :=
  {| kind := TooBigRpcError; rec := err |}.
Definition createTooBigProtocolError (err : MgmtError) : TypedError :=
  {| kind := TooBigProtocolError; rec := err |}.
Definition createTooBigApplicationError (err : MgmtError) : TypedError :=
  {| kind := TooBigApplicationError; rec := err |}.
Definition createMissingAttrRpcError (err : MgmtError) : TypedError :=
  {| kind := MissingAttrRpcError; rec := err |}.
Definition createMissingAttrProtocolError (err : MgmtError) : TypedError :=
  {| kind := MissingAttrProtocolError; rec := err |}.
Definition createMissingAttrApplicationError (err : MgmtError) : TypedError :=
  {| kind := MissingAttrApplicationError; rec := err |}.
Definition createBadAttrRpcError (err : MgmtError) : TypedError :=
  {| kind := BadAttrRpcError; rec := err |}.
Definition createBadAttrProtocolError (err : MgmtError) : TypedError :=
  {| kind := BadAttrProtocolError; rec := err |}.
Definition createBadAttrApplicationError (err : MgmtError) : TypedError :=
  {| kind := BadAttrApplicationError; rec := err |}.
Definition createUnknownAttrRpcError (err : MgmtError) : TypedError :=
  {| kind := UnknownAttrRpcError; rec := err |}.
Definition createUnknownAttrProtocolError (err : MgmtError) : TypedError :=
  {| kind := UnknownAttrProtocolError; rec := err |}.
Definition createUnknownAttrApplicationError (err : MgmtError) : TypedError :=
  {| kind := UnknownAttrApplicationError; rec := err |}.
Definition createMissingElementProtocolError (err : MgmtError) : TypedError :=
  {| kind := MissingElementProtocolError; rec := err |}.
Definition createMissingElementApplicationError (err : MgmtError) : TypedError :=
  {| kind := MissingElementApplicationError; rec := err |}.
Definition createBadElementProtocolError (err : MgmtError) : TypedError :=
  {| kind := BadElementProtocolError; rec := err |}.
Definition createBadElementApplicationError (err : MgmtError) : TypedError :=
  {| kind := BadElementApplicationError; rec := err |}.
Definition createUnknownElementProtocolError (err : MgmtError) : TypedError :=
  {| kind := UnknownElementProtocolError; rec := err |}.
Definition createUnknownElementApplicationError (err : MgmtError) : TypedError :=
  {| kind := UnknownElementApplicationError; rec := err |}.
Definition createUnknownNamespaceProtocolError (err : MgmtError) : TypedError :=
  {| kind := UnknownNamespaceProtocolError; rec := err |}.
Definition createUnknownNamespaceApplicationError (err : MgmtError) : TypedError :=
  {| kind := UnknownNamespaceApplicationError; rec := err |}.
Definition createAccessDeniedProtocolError (err : MgmtError) : TypedError :=
  {| kind := AccessDeniedProtocolError; rec := err |}.
Definition createAccessDeniedApplicationError (err : MgmtError) : TypedError :=
  {| kind := AccessDeniedApplicationError; rec := err |}.
Definition createLockDeniedError (err : MgmtError) : TypedError :=
  {| kind := LockDeniedError; rec := err |}.
Definition createResourceDeniedTransportError (err : MgmtError) : TypedError :=
  {| kind := ResourceDeniedTransportError; rec := err |}.
Definition createResourceDeniedRpcError (err : MgmtError) : TypedError :=
  {| kind := ResourceDeniedRpcError; rec := err |}.
Definition createResourceDeniedProtocolError (err : MgmtError) : TypedError :=
  {| kind := ResourceDeniedProtocolError; rec := err |}.
Definition createResourceDeniedApplicationError (err : MgmtError) : TypedError :=
  {| kind := ResourceDeniedApplicationError; rec := err |}.
Definition createRollbackFailedProtocolError (err : MgmtError) : TypedError :=
  {| kind := RollbackFailedProtocolError; rec := err |}.
Definition createRollbackFailedApplicationError (err : MgmtError) : TypedError :=
  {| kind := RollbackFailedApplicationError; rec := err |}.
Definition createDataExistsError (err : MgmtError) : TypedError :=
  {| kind := DataExistsError; rec := err |}.
Definition createDataMissingError (err : MgmtError) : TypedError :=
  {| kind := DataMissingError; rec := err |}.
Definition createOperationNotSupportedProtocolError (err : MgmtError) : TypedError :=
  {| kind := OperationNotSupportedProtocolError; rec := err |}.
Definition createOperationNotSupportedApplicationError (err : MgmtError) : TypedError :=
  {| kind := OperationNotSupportedApplicationError; rec := err |}.
Definition createOperationFailedProtocolError (err : MgmtError) : TypedError :=
  {| kind := OperationFailedProtocolError; rec := err |}.
Definition createOperationFailedApplicationError (err : MgmtError) : TypedError :=
  {| kind := OperationFailedApplicationError; rec := err |}.
Definition createOperationFailedRpcError (err : MgmtError) : TypedError :=
  {| kind := OperationFailedRpcError; rec := err |}.
Definition createMalformedMessageError (err : MgmtError) : TypedError :=
  {| kind := MalformedMessageError; rec := err |}.
Definition createNonUniqueError (err : MgmtError) : TypedError :=
  {| kind := NonUniqueError; rec := err |}.
Definition createTooManyElementsError (err : MgmtError) : TypedError :=
  {| kind := TooManyElementsError; rec := err |}.
Definition createTooFewElementsError (err : MgmtError) : TypedError :=
  {| kind := TooFewElementsError; rec := err |}.
Definition createMustViolationError (err : MgmtError) : TypedError :=
  {| kind := MustViolationError; rec := err |}.
Definition createInstanceRequiredError (err : MgmtError) : TypedError :=
  {| kind := InstanceRequiredError; rec := err |}.
Definition createLeafrefMismatchError (err : MgmtError) : TypedError :=
  {| kind := LeafrefMismatchError; rec := err |}.
Definition createMissingChoiceError (err : MgmtError) : TypedError :=
  {| kind := MissingChoiceError; rec := err |}.
Definition createInsertFailedError (err : MgmtError) : TypedError :=
  {| kind := InsertFailedError; rec := err |}.
Definition createExecError (err : MgmtError) : TypedError :=
  {| kind := ExecError; rec := err |}.
Definition createPathAmbigError (err : MgmtError) : TypedError :=
  {| kind := PathAmbiguousError; rec := err |}.

(** [callCreate]: every function stored in the catalogs takes one
    [*MgmtError] and returns one wrapper, which is an [error]; the
    reflective call therefore returns the function's result. *)
Definition callCreate (fn : MgmtError -> TypedError) (err : MgmtError) : TypedError :=
  fn err.

(** ** ncerror.go: the base-protocol catalog (RFC6241 Appendix A) *)

Definition ncerrseverity := N.
Definition nc_severity_error : ncerrseverity := 0.

Definition ncerrseveritymap : gmap ncerrseverity string :=
  list_to_map [(nc_severity_error, "error")].

Definition ncerrseverity_String (s : ncerrseverity) : string :=
  default "" (ncerrseveritymap !! s).

Definition ncerrtag := N.
Definition in_use : ncerrtag := 0.
Definition invalid_value : ncerrtag := 1.
Definition too_big : ncerrtag := 2.
Definition missing_attribute : ncerrtag := 3.
Definition bad_attribute : ncerrtag := 4.
Definition unknown_attribute : ncerrtag := 5.
Definition missing_element : ncerrtag := 6.
Definition bad_element : ncerrtag := 7.
Definition unknown_element : ncerrtag := 8.
Definition unknown_namespace : ncerrtag := 9.
Definition access_denied : ncerrtag := 10.
Definition lock_denied : ncerrtag := 11.
Definition resource_denied : ncerrtag := 12.
Definition rollback_failed : ncerrtag := 13.
Definition data_exists : ncerrtag := 14.
Definition data_missing : ncerrtag := 15.
Definition operation_not_supported : ncerrtag := 16.
Definition operation_failed : ncerrtag := 17.
Definition malformed_message : ncerrtag := 18.

Definition ncerrtagmap : gmap string ncerrtag :=
  list_to_map [
    ("in-use", in_use);
    ("invalid-value", invalid_value);
    ("too-big", too_big);
    ("missing-attribute", missing_attribute);
    ("bad-attribute", bad_attribute);
    ("unknown-attribute", unknown_attribute);
    ("missing-element", missing_element);
    ("bad-element", bad_element);
    ("unknown-element", unknown_element);
    ("unknown-namespace", unknown_namespace);
    ("access-denied", access_denied);
    ("lock-denied", lock_denied);
    ("resource-denied", resource_denied);
    ("rollback-failed", rollback_failed);
    ("data-exists", data_exists);
    ("data-missing", data_missing);
    ("operation-not-supported", operation_not_supported);
    ("operation-failed", operation_failed);
    ("malformed-message", malformed_message)].

Definition ncerrtag_String (t : ncerrtag) : string := map_key_of ncerrtagmap t.

Definition msg_nc_in_use : string :=
  "The request requires a resource that already is in use.".
Definition msg_nc_invalid_value : string :=
  "The request specifies an unacceptable value for one or more parameters.".
Definition msg_nc_too_big : string :=
  "The request or response (that would be generated) is too large for the implementation to handle.".
Definition msg_nc_missing_attribute : string :=
  "An expected attribute is missing.".
Definition msg_nc_bad_attribute : string :=
  "An attribute value is not correct; e.g., wrong type, out of range, pattern mismatch.".
Definition msg_nc_unknown_attribute : string :=
  "An unexpected attribute is present.".
Definition msg_nc_missing_element : string :=
  "An expected element is missing.".
Definition msg_nc_bad_element : string :=
  "An element value is not correct; e.g., wrong type, out of range, pattern mismatch.".
Definition msg_nc_unknown_element : string :=
  "An unexpected element is present.".
Definition msg_nc_unknown_namespace : string :=
  "An unexpected namespace is present.".
Definition msg_nc_access_denied : string :=
  "Access to the requested protocol operation or data model is denied because authorization failed.".
Definition msg_nc_lock_denied : string :=
  "Access to the requested lock is denied because the lock is currently held by another entity.".
Definition msg_nc_resource_denied : string :=
  "Request could not be completed because of insufficient resources.".
Definition msg_nc_rollback_failed : string :=
  "Request to roll back some configuration change (via rollback-on-error or <discard-changes> operations) was not completed for some reason.".
Definition msg_nc_data_exists : string :=
  "Request could not be completed because the relevant data model content already exists.  For example, a " +:+ dquote +:+ "create" +:+ dquote +:+ " operation was attempted on data that already exists.".
Definition msg_nc_data_missing : string :=
  "Request could not be completed because the relevant data model content does not exist.  For example, a " +:+ dquote +:+ "delete" +:+ dquote +:+ " operation was attempted on data that does not exist.".
Definition msg_nc_operation_not_supported : string :=
  "Request could not be completed because the requested operation is not supported by this implementation.".
Definition msg_nc_operation_failed : string :=
  "Request could not be completed because the requested operation failed for some reason not covered by any other error condition.".
Definition msg_nc_partial_operation : string :=
  "This error-tag is obsolete, and SHOULD NOT be sent by servers conforming to this document.".
Definition msg_nc_malformed_message : string :=
  "A message could not be handled because it failed to be parsed correctly.  For example, the message is not well-formed XML or it uses an invalid character set.".

Definition typeMap := gmap errtype (MgmtError -> TypedError).

Record ncErrTag : Type := mkNcErrTag {
  nc_severity : ncerrseverity;
  nc_msg : string;
  nc_typ : typeMap
}.

Definition ncErrTable : gmap ncerrtag ncErrTag :=
  list_to_map [
    (in_use, {| nc_severity := nc_severity_error; nc_msg := msg_nc_in_use;
       nc_typ := list_to_map [(protocol, createInUseProtocolError);
                              (application, createInUseApplicationError)] |});
    (invalid_value, {| nc_severity := nc_severity_error; nc_msg := msg_nc_invalid_value;
       nc_typ := list_to_map [(protocol, createInvalidValueProtocolError);
                              (application, createInvalidValueApplicationError)] |});
    (too_big, {| nc_severity := nc_severity_error; nc_msg := msg_nc_too_big;
       nc_typ := list_to_map [(transport, createTooBigTransportError);
                              (rpc, createTooBigRpcError);
                              (protocol, createTooBigProtocolError);
                              (application, createTooBigApplicationError)] |});
    (missing_attribute, {| nc_severity := nc_severity_error; nc_msg := msg_nc_missing_attribute;
       nc_typ := list_to_map [(rpc, createMissingAttrRpcError);
                              (protocol, createMissingAttrProtocolError);
                              (application, createMissingAttrApplicationError)] |});
    (bad_attribute, {| nc_severity := nc_severity_error; nc_msg := msg_nc_bad_attribute;
       nc_typ := list_to_map [(rpc, createBadAttrRpcError);
                              (protocol, createBadAttrProtocolError);
                              (application, createBadAttrApplicationError)] |});
    (unknown_attribute, {| nc_severity := nc_severity_error; nc_msg := msg_nc_unknown_attribute;
       nc_typ := list_to_map [(rpc, createUnknownAttrRpcError);
                              (protocol, createUnknownAttrProtocolError);
                              (application, createUnknownAttrApplicationError)] |});
    (missing_element, {| nc_severity := nc_severity_error; nc_msg := msg_nc_missing_element;
       nc_typ := list_to_map [(protocol, createMissingElementProtocolError);
                              (application, createMissingElementApplicationError)] |});
    (bad_element, {| nc_severity := nc_severity_error; nc_msg := msg_nc_bad_element;
       nc_typ := list_to_map [(protocol, createBadElementProtocolError);
                              (application, createBadElementApplicationError)] |});
    (unknown_element, {| nc_severity := nc_severity_error; nc_msg := msg_nc_unknown_element;
       nc_typ := list_to_map [(protocol, createUnknownElementProtocolError);
                              (application, createUnknownElementApplicationError)] |});
    (unknown_namespace, {| nc_severity := nc_severity_error; nc_msg := msg_nc_unknown_namespace;
       nc_typ := list_to_map [(protocol, createUnknownNamespaceProtocolError);
                              (application, createUnknownNamespaceApplicationError)] |});
    (access_denied, {| nc_severity := nc_severity_error; nc_msg := msg_nc_access_denied;
       nc_typ := list_to_map [(protocol, createAccessDeniedProtocolError);
                              (application, createAccessDeniedApplicationError)] |});
    (lock_denied, {| nc_severity := nc_severity_error; nc_msg := msg_nc_lock_denied;
       nc_typ := list_to_map [(protocol, createLockDeniedError)] |});
    (resource_denied, {| nc_severity := nc_severity_error; nc_msg := msg_nc_resource_denied;
       nc_typ := list_to_map [(transport, createResourceDeniedTransportError);
                              (rpc, createResourceDeniedRpcError);
                              (protocol, createResourceDeniedProtocolError);
                              (application, createResourceDeniedApplicationError)] |});
    (rollback_failed, {| nc_severity := nc_severity_error; nc_msg := msg_nc_rollback_failed;
       nc_typ := list_to_map [(protocol, createRollbackFailedProtocolError);
                              (application, createRollbackFailedApplicationError)] |});
    (data_exists, {| nc_severity := nc_severity_error; nc_msg := msg_nc_data_exists;
       nc_typ := list_to_map [(application, createDataExistsError)] |});
    (data_missing, {| nc_severity := nc_severity_error; nc_msg := msg_nc_data_missing;
       nc_typ := list_to_map [(application, createDataMissingError)] |});
    (operation_not_supported, {| nc_severity := nc_severity_error; nc_msg := msg_nc_operation_not_supported;
       nc_typ := list_to_map [(protocol, createOperationNotSupportedProtocolError);
                              (application, createOperationNotSupportedApplicationError)] |});
    (operation_failed, {| nc_severity := nc_severity_error; nc_msg := msg_nc_operation_failed;
       nc_typ := list_to_map [(rpc, createOperationFailedRpcError);
                              (protocol, createOperationFailedProtocolError);
                              (application, createOperationFailedApplicationError)] |});
    (malformed_message, {| nc_severity := nc_severity_error; nc_msg := msg_nc_malformed_message;
       nc_typ := list_to_map [(rpc, createMalformedMessageError)] |})].

Definition getNetconfError (err : MgmtError) : option TypedError :=
  match ncerrtagmap !! Tag err with
  | None => None
  | Some tag =>
      match ncErrTable !! tag with
      | None => None
      | Some ncErrTag =>
          match errtypemap !! Typ err with
          | None => None
          | Some errTypeId =>
              match nc_typ ncErrTag !! errTypeId with
              | Some fn => Some (callCreate fn err)
              | None => None
              end
          end
      end
  end.

Definition ncErrInfoId := N.
Definition bad_attribute_info : ncErrInfoId := 0.
Definition bad_element_info : ncErrInfoId := 1.
Definition bad_namespace_info : ncErrInfoId := 2.
Definition session_id_info : ncErrInfoId := 3.

Definition ncErrInfoIdMap : gmap ncErrInfoId string :=
  list_to_map [(bad_attribute_info, "bad-attribute");
               (bad_element_info, "bad-element");
               (bad_namespace_info, "bad-namespace");
               (session_id_info, "session-id")].

Definition ncErrInfoId_String (i : ncErrInfoId) : string :=
  default "" (ncErrInfoIdMap !! i).

(** [setNcError]: [info] is a pointer, [None] is [nil]. *)
Definition setNcError (e : MgmtError) (tag : ncerrtag) (typ apptag path : string)
    (info : option MgmtErrorInfo) : result MgmtError :=
  match ncErrTable !! tag with
  | None => Err invalid_error_tag
  | Some ncErrTag =>
      match errtypemap !! typ with
      | None => Err invalid_error_type
      | Some errTypeId =>
          match nc_typ ncErrTag !! errTypeId with
          | None => Err invalid_error_tag_type
          | Some _ =>
              OK {| Name := Name e;
                    Typ := typ;
                    Tag := ncerrtag_String tag;
                    Severity := ncerrseverity_String (nc_severity ncErrTag);
                    AppTag := apptag;
                    Path := path;
                    Message := nc_msg ncErrTag;
                    Info := match info with Some i => i | None => Info e end |}
          end
      end
  end.

(** [newNcError] panics when [setNcError] reports an error. *)
Definition newNcError (tag : ncerrtag) (typ apptag path : string)
    (info : option MgmtErrorInfo) : result MgmtError :=
  match setNcError newMgmtError tag typ apptag path info with
  | OK e => OK e
  | _ => Panic
  end.

Definition newAttrError (tag : ncerrtag) (typ badAttr badElem : string)
    : result MgmtError :=
  let info :=
    [ {| XMLName := {| Space := ""; Local := ncErrInfoId_String bad_attribute_info |};
         Value := badAttr |};
      {| XMLName := {| Space := ""; Local := ncErrInfoId_String bad_element_info |};
         Value := badElem |} ] in
  newNcError tag typ "" "" (Some info).

Definition newElemError (tag : ncerrtag) (typ badElem : string) : result MgmtError :=
  let info :=
    [ {| XMLName := {| Space := ""; Local := ncErrInfoId_String bad_element_info |};
         Value := badElem |} ] in
  newNcError tag typ "" "" (Some info).

Definition newUnknownNamespaceError (typ badElem badNS : string) : result MgmtError :=
  let info :=
    [ {| XMLName := {| Space := ""; Local := ncErrInfoId_String bad_element_info |};
         Value := badElem |};
      {| XMLName := {| Space := ""; Local := ncErrInfoId_String bad_namespace_info |};
         Value := badNS |} ] in
  newNcError unknown_namespace typ "" "" (Some info).

Definition newInUseError (typ : string) : result MgmtError :=
  newNcError in_use typ "" "" None.
Definition newInvalidValueError (typ : string) : result MgmtError :=
  newNcError invalid_value typ "" "" None.
Definition newTooBigError (typ : string) : result MgmtError :=
  newNcError too_big typ "" "" None.
Definition newMissingAttrError (typ badAttr badElem : string) : result MgmtError :=
  newAttrError missing_attribute typ badAttr badElem.
Definition newBadAttrError (typ badAttr badElem : string) : result MgmtError :=
  newAttrError bad_attribute typ badAttr badElem.
Definition newUnknownAttrError (typ badAttr badElem : string) : result MgmtError :=
  newAttrError unknown_attribute typ badAttr badElem.
Definition newMissingElemError (typ badElem : string) : result MgmtError :=
  newElemError missing_element typ badElem.
Definition newBadElemError (typ badElem : string) : result MgmtError :=
  newElemError bad_element typ badElem.
Definition newUnknownElemError (typ badElem : string) : result MgmtError :=
  newElemError unknown_element typ badElem.
Definition newAccessDeniedError (typ : string) : result MgmtError :=
  newNcError access_denied typ "" "" None.
Definition newResourceDeniedError (typ : string) : result MgmtError :=
  newNcError resource_denied typ "" "" None.
Definition newRollbackFailedError (typ : string) : result MgmtError :=
  newNcError rollback_failed typ "" "" None.
Definition newOperationNotSupportedError (typ : string) : result MgmtError :=
  newNcError operation_not_supported typ "" "" None.
Definition newOperationFailedError (typ : string) : result MgmtError :=
  newNcError operation_failed typ "" "" None.

(** The public constructors of ncerror.go. *)
Definition NewInUseProtocolError : result TypedError :=
  createInUseProtocolError <$> newInUseError (errtype_String protocol).
Definition NewInUseApplicationError : result TypedError :=
  createInUseApplicationError <$> newInUseError (errtype_String application).
Definition NewInvalidValueProtocolError : result TypedError :=
  createInvalidValueProtocolError <$> newInvalidValueError (errtype_String protocol).
Definition NewInvalidValueApplicationError : result TypedError :=
  createInvalidValueApplicationError <$> newInvalidValueError (errtype_String application).
Definition NewTooBigTransportError : result TypedError :=
  createTooBigTransportError <$> newTooBigError (errtype_String transport).
Definition NewTooBigRpcError : result TypedError :=
  createTooBigRpcError <$> newTooBigError (errtype_String rpc).
Definition NewTooBigProtocolError : result TypedError :=
  createTooBigProtocolError <$> newTooBigError (errtype_String protocol).
Definition NewTooBigApplicationError : result TypedError :=
  createTooBigApplicationError <$> newTooBigError (errtype_String application).
Definition NewMissingAttrRpcError (badAttr badElem : string) : result TypedError :=
  createMissingAttrRpcError <$> newMissingAttrError (errtype_String rpc) badAttr badElem.
Definition NewMissingAttrProtocolError (badAttr badElem : string) : result TypedError :=
  createMissingAttrProtocolError <$> newMissingAttrError (errtype_String protocol) badAttr badElem.
Definition NewMissingAttrApplicationError (badAttr badElem : string) : result TypedError :=
  createMissingAttrApplicationError <$> newMissingAttrError (errtype_String application) badAttr badElem.
Definition NewBadAttrRpcError (badAttr badElem : string) : result TypedError :=
  createBadAttrRpcError <$> newBadAttrError (errtype_String rpc) badAttr badElem.
Definition NewBadAttrProtocolError (badAttr badElem : string) : result TypedError :=
  createBadAttrProtocolError <$> newBadAttrError (errtype_String protocol) badAttr badElem.
Definition NewBadAttrApplicationError (badAttr badElem : string) : result TypedError :=
  createBadAttrApplicationError <$> newBadAttrError (errtype_String application) badAttr badElem.
Definition NewUnknownAttrRpcError (badAttr badElem : string) : result TypedError :=
  createUnknownAttrRpcError <$> newUnknownAttrError (errtype_String rpc) badAttr badElem.
Definition NewUnknownAttrProtocolError (badAttr badElem : string) : result TypedError :=
  createUnknownAttrProtocolError <$> newUnknownAttrError (errtype_String protocol) badAttr badElem.
Definition NewUnknownAttrApplicationError (badAttr badElem : string) : result TypedError :=
  createUnknownAttrApplicationError <$> newUnknownAttrError (errtype_String application) badAttr badElem.
Definition NewMissingElementProtocolError (badElem : string) : result TypedError :=
  createMissingElementProtocolError <$> newMissingElemError (errtype_String protocol) badElem.
Definition NewMissingElementApplicationError (badElem : string) : result TypedError :=
  createMissingElementApplicationError <$> newMissingElemError (errtype_String application) badElem.
Definition NewBadElementProtocolError (badElem : string) : result TypedError :=
  createBadElementProtocolError <$> newBadElemError (errtype_String protocol) badElem.
Definition NewBadElementApplicationError (badElem : string) : result TypedError :=
  createBadElementApplicationError <$> newBadElemError (errtype_String application) badElem.
Definition NewUnknownElementProtocolError (badElem : string) : result TypedError :=
  createUnknownElementProtocolError <$> newUnknownElemError (errtype_String protocol) badElem.
Definition NewUnknownElementApplicationError (badElem : string) : result TypedError :=
  createUnknownElementApplicationError <$> newUnknownElemError (errtype_String application) badElem.
Definition NewUnknownNamespaceProtocolError (badElem badNS : string) : result TypedError :=
  createUnknownNamespaceProtocolError <$> newUnknownNamespaceError (errtype_String protocol) badElem badNS.
Definition NewUnknownNamespaceApplicationError (badElem badNS : string) : result TypedError :=
  createUnknownNamespaceApplicationError <$> newUnknownNamespaceError (errtype_String application) badElem badNS.
Definition NewAccessDeniedProtocolError : result TypedError :=
  createAccessDeniedProtocolError <$> newAccessDeniedError (errtype_String protocol).
Definition NewAccessDeniedApplicationError : result TypedError :=
  createAccessDeniedApplicationError <$> newAccessDeniedError (errtype_String application).
Definition NewLockDeniedError (sess : string) : result TypedError :=
  let info :=
    [ {| XMLName := {| Space := ""; Local := ncErrInfoId_String session_id_info |};
         Value := sess |} ] in
  createLockDeniedError <$> newNcError lock_denied (errtype_String protocol) "" "" (Some info).
Definition NewResourceDeniedTransportError : result TypedError :=
  createResourceDeniedTransportError <$> newResourceDeniedError (errtype_String transport).
Definition NewResourceDeniedRpcError : result TypedError :=
  createResourceDeniedRpcError <$> newResourceDeniedError (errtype_String rpc).
Definition NewResourceDeniedProtocolError : result TypedError :=
  createResourceDeniedProtocolError <$> newResourceDeniedError (errtype_String protocol).
Definition NewResourceDeniedApplicationError : result TypedError :=
  createResourceDeniedApplicationError <$> newResourceDeniedError (errtype_String application).
Definition NewRollbackFailedProtocolError : result TypedError :=
  createRollbackFailedProtocolError <$> newRollbackFailedError (errtype_String protocol).
Definition NewRollbackFailedApplicationError : result TypedError :=
  createRollbackFailedApplicationError <$> newRollbackFailedError (errtype_String application).
Definition NewDataExistsError : result TypedError :=
  createDataExistsError <$> newNcError data_exists (errtype_String application) "" "" None.
Definition NewDataMissingError : result TypedError :=
  createDataMissingError <$> newNcError data_missing (errtype_String application) "" "" None.
Definition NewOperationNotSupportedProtocolError : result TypedError :=
  createOperationNotSupportedProtocolError <$> newOperationNotSupportedError (errtype_String protocol).
Definition NewOperationNotSupportedApplicationError : result TypedError :=
  createOperationNotSupportedApplicationError <$> newOperationNotSupportedError (errtype_String application).
Definition NewOperationFailedProtocolError : result TypedError :=
  createOperationFailedProtocolError <$> newOperationFailedError (errtype_String protocol).
Definition NewOperationFailedApplicationError : result TypedError :=
  createOperationFailedApplicationError <$> newOperationFailedError (errtype_String application).
Definition NewOperationFailedRpcError : result TypedError :=
  createOperationFailedRpcError <$> newOperationFailedError (errtype_String rpc).
Definition NewMalformedMessageError : result TypedError :=
  createMalformedMessageError <$> newNcError malformed_message "rpc" "" "" None.

(** ** yangerror.go: the YANG catalog (RFC6020 Sect 13) *)

Definition yerrseverity := N.
Definition yang_severity_error : yerrseverity := 0.
Definition yang_severity_warning : yerrseverity := 1.

Definition needNodePath : string := "".
Definition noYangPath : string := "".
Definition needYangPath : string := "".

Definition yerrseveritymap : gmap yerrseverity string :=
  list_to_map [(yang_severity_error, "error"); (yang_severity_warning, "warning")].

Definition yerrseverity_String (s : yerrseverity) : string :=
  default "" (yerrseveritymap !! s).

Definition yerrtag := N.
Definition yang_operation_failed : yerrtag := 0.
Definition yang_data_missing : yerrtag := 1.
Definition yang_bad_attribute : yerrtag := 2.

Definition errtagmap : gmap string yerrtag :=
  list_to_map [("operation-failed", yang_operation_failed);
               ("data-missing", yang_data_missing);
               ("bad-attribute", yang_bad_attribute)].

Definition yerrtag_String (t : yerrtag) : string := map_key_of errtagmap t.

Definition yerrapptagid := N.
Definition data_not_unique : yerrapptagid := 0.
Definition too_many_elements : yerrapptagid := 1.
Definition too_few_elements : yerrapptagid := 2.
Definition must_violation : yerrapptagid := 3.
Definition instance_required : yerrapptagid := 4.
Definition missing_choice : yerrapptagid := 5.
Definition missing_instance : yerrapptagid := 6.

Definition yerrapptagmap : gmap string yerrapptagid :=
  list_to_map [("data-not-unique", data_not_unique);
               ("too-many-elements", too_many_elements);
               ("too-few-elements", too_few_elements);
               ("must-violation", must_violation);
               ("instance-required", instance_required);
               ("missing-choice", missing_choice);
               ("missing-instance", missing_instance)].

Definition yerrapptagid_String (t : yerrapptagid) : string :=
  map_key_of yerrapptagmap t.

Definition appTagMap := gmap yerrapptagid (MgmtError -> TypedError).

Record yangErrTag : Type := mkYangErrTag {
  y_severity : yerrseverity;
  y_msg : string;
  y_apptag : appTagMap
}.

Definition msg_yang_operation_failed : string := "The requested operation failed.".
Definition msg_yang_data_missing : string := "Expected data is missing.".
Definition msg_yang_bad_attribute : string :=
  "An attribute value is not correct; e.g., wrong type, out of range, pattern mismatch.".

Definition yangErrTable : gmap yerrtag yangErrTag :=
  list_to_map [
    (yang_operation_failed,
      {| y_severity := yang_severity_error; y_msg := msg_yang_operation_failed;
         y_apptag := list_to_map [(data_not_unique, createNonUniqueError);
                                  (too_many_elements, createTooManyElementsError);
                                  (too_few_elements, createTooFewElementsError);
                                  (must_violation, createMustViolationError)] |});
    (yang_data_missing,
      {| y_severity := yang_severity_error; y_msg := msg_yang_data_missing;
         y_apptag := list_to_map [(instance_required, createInstanceRequiredError);
                                  (missing_choice, createMissingChoiceError)] |});
    (yang_bad_attribute,
      {| y_severity := yang_severity_error; y_msg := msg_yang_bad_attribute;
         y_apptag := list_to_map [(missing_instance, createInsertFailedError)] |})].

Definition getYangError (err : MgmtError) : option TypedError :=
  match errtagmap !! Tag err with
  | None => None
  | Some tag =>
      match yangErrTable !! tag with
      | None => None
      | Some errtag =>
          match yerrapptagmap !! AppTag err with
          | None => None
          | Some apptag =>
              match y_apptag errtag !! apptag with
              | None => None
              | Some fn => Some (callCreate fn err)
              end
          end
      end
  end.

Definition yangErrInfoId := N.
Definition non_unique_info : yangErrInfoId := 0.
Definition missing_choice_info : yangErrInfoId := 1.

Definition yangErrInfoIdMap : gmap yangErrInfoId string :=
  list_to_map [(non_unique_info, "non-unique"); (missing_choice_info, "missing-choice")].

Definition yangErrInfoId_String (i : yangErrInfoId) : string :=
  default "" (yangErrInfoIdMap !! i).

(** [setYangError]: the parameter [yangPath] is not used by the body. *)
Definition setYangError (e : MgmtError) (tag : yerrtag) (apptag path yangPath : string)
    (info : option MgmtErrorInfo) : result MgmtError :=
  match yangErrTable !! tag with
  | None => Err invalid_error_tag
  | Some yangErrTag =>
      OK {| Name := Name e;
            Typ := "application";
            Tag := yerrtag_String tag;
            Severity := yerrseverity_String (y_severity yangErrTag);
            AppTag := apptag;
            Path := path;
            Message := y_msg yangErrTag;
            Info := match info with Some i => i | None => Info e end |}
  end.

Definition newYangError (tag : yerrtag) (apptag path yangPath : string)
    (info : option MgmtErrorInfo) : result MgmtError :=
  match setYangError newMgmtError tag apptag path yangPath info with
  | OK e => OK e
  | _ => Panic
  end.

(** The public constructors of yangerror.go. *)
Definition NewNonUniqueError (paths : list string) : result TypedError :=
  let info :=
    map (fun p => {| XMLName := {| Space := yang_namespace;
                                   Local := yangErrInfoId_String non_unique_info |};
                     Value := p |}) paths in
  createNonUniqueError <$>
    newYangError yang_operation_failed (yerrapptagid_String data_not_unique)
      needNodePath noYangPath (Some info).

Definition NewTooManyElementsError (path : string) : result TypedError :=
  createTooManyElementsError <$>
    newYangError yang_operation_failed (yerrapptagid_String too_many_elements)
      path noYangPath None.

Definition NewTooFewElementsError (path : string) : result TypedError :=
  createTooFewElementsError <$>
    newYangError yang_operation_failed (yerrapptagid_String too_few_elements)
      path noYangPath None.

Definition NewMustViolationError : result TypedError :=
  createMustViolationError <$>
    newYangError yang_operation_failed (yerrapptagid_String must_violation)
      needNodePath noYangPath None.

Definition NewInstanceRequiredError (path : string) : result TypedError :=
  createInstanceRequiredError <$>
    newYangError yang_data_missing (yerrapptagid_String instance_required)
      path needYangPath None.

Definition NewLeafrefMismatchError (path lrefPath : string) : result TypedError :=
  createLeafrefMismatchError <$>
    newYangError yang_data_missing (yerrapptagid_String instance_required)
      path lrefPath None.

Definition NewMissingChoiceError (path name : string) : result TypedError :=
  let info :=
    [ {| XMLName := {| Space := yang_namespace;
                       Local := yangErrInfoId_String missing_choice_info |};
         Value := name |} ] in
  createMissingChoiceError <$>
    newYangError yang_operation_failed (yerrapptagid_String missing_choice)
      path needYangPath (Some info).

Definition NewInsertFailedError : result TypedError :=
  createInsertFailedError <$>
    newYangError yang_bad_attribute (yerrapptagid_String missing_instance)
      needNodePath noYangPath None.

(** ** vyerror.go: the vendor catalog *)

Definition vyErrTag := N.
Definition vyatta_operation_failed : vyErrTag := 0.

Definition vyErrTagMap : gmap string vyErrTag :=
  list_to_map [("operation-failed", vyatta_operation_failed)].

Definition vyErrTag_String (t : vyErrTag) : string := map_key_of vyErrTagMap t.

Definition vyErrAppTagId := N.
Definition exec_failed : vyErrAppTagId := 0.
Definition path_ambig : vyErrAppTagId := 1.

Definition vyErrAppTagMap : gmap string vyErrAppTagId :=
  list_to_map [("exec-failed", exec_failed); ("path-ambiguous", path_ambig)].

Definition vyErrAppTagId_String (t : vyErrAppTagId) : string :=
  map_key_of vyErrAppTagMap t.

Definition vyAppTagMap := gmap vyErrAppTagId (MgmtError -> TypedError).

Record vyError : Type := mkVyError {
  vy_severity : yerrseverity;
  vy_msg : string;
  vy_apptag : vyAppTagMap
}.

Definition vyErrTable : gmap vyErrTag vyError :=
  list_to_map [
    (vyatta_operation_failed,
      {| vy_severity := yang_severity_error; vy_msg := msg_yang_operation_failed;
         vy_apptag := list_to_map [(exec_failed, createExecError);
                                   (path_ambig, createPathAmbigError)] |})].

Definition getVyattaError (err : MgmtError) : option TypedError :=
  match vyErrTagMap !! Tag err with
  | None => None
  | Some tag =>
      match vyErrTable !! tag with
      | None => None
      | Some errtag =>
          match vyErrAppTagMap !! AppTag err with
          | None => None
          | Some apptag =>
              match vy_apptag errtag !! apptag with
              | None => None
              | Some fn => Some (callCreate fn err)
              end
          end
      end
  end.

Definition setVyattaError (e : MgmtError) (tag : vyErrTag) (apptag path : string)
    (info : option MgmtErrorInfo) : result MgmtError :=
  match vyErrTable !! tag with
  | None => Err invalid_error_tag
  | Some vyErr =>
      OK {| Name := Name e;
            Typ := "application";
            Tag := vyErrTag_String tag;
            Severity := yerrseverity_String (vy_severity vyErr);
            AppTag := apptag;
            Path := path;
            Message := vy_msg vyErr;
            Info := match info with Some i => i | None => Info e end |}
  end.

Definition newVyattaError (tag : vyErrTag) (apptag path : string)
    (info : option MgmtErrorInfo) : result MgmtError :=
  match setVyattaError newMgmtError tag apptag path info with
  | OK e => OK e
  | _ => Panic
  end.

(** ** JSON documents (encoding/json) *)

Inductive json : Type :=
  | JNull
  | JBool (b : bool)
  | JNumber (literal : string)
  | JString (s : string)
  | JArray (elems : list json)
  | JObject (members : list (string * json)).

(** The compact text [json.Marshal] writes for a document.  A string is
    quoted with the escapes of encoding/json: the quote, the backslash,
    control characters and, as HTML escaping is on, the characters
    less-than, greater-than and ampersand.  Bytes above 0x7F are copied
    (the string is taken to be valid UTF-8 without U+2028 and U+2029). *)
Definition hex_digit (n : N) : ascii :=
  if n <? 10 then ascii_of_N (48 + n) else ascii_of_N (87 + n).

Definition backslash : string := String (ascii_of_N 92) EmptyString.

Definition json_escape (c : ascii) : string :=
  let n := N_of_ascii c in
  if n =? 34 then backslash +:+ dquote
  else if n =? 92 then backslash +:+ backslash
  else if n =? 10 then backslash +:+ "n"
  else if n =? 13 then backslash +:+ "r"
  else if n =? 9 then backslash +:+ "t"
  else if (n <? 32) || (n =? 60) || (n =? 62) || (n =? 38)
       then backslash +:+ "u00"
              +:+ String (hex_digit (n / 16)) (String (hex_digit (n mod 16)) EmptyString)
  else String c EmptyString.

Fixpoint json_escape_string (s : string) : string :=
  match s with
  | EmptyString => EmptyString
  | String c s' => json_escape c +:+ json_escape_string s'
  end.

Definition json_quote (s : string) : string :=
  dquote +:+ json_escape_string s +:+ dquote.

Fixpoint render (j : json) : string :=
  match j with
  | JNull => "null"
  | JBool true => "true"
  | JBool false => "false"
  | JNumber lit => lit
  | JString s => json_quote s
  | JArray elems =>
      "[" +:+ strings.Join (map render elems) "," +:+ "]"
  | JObject members =>
      "{" +:+ strings.Join
                (map (fun kv => json_quote (fst kv) +:+ ":" +:+ render (snd kv)) members)
                ","
          +:+ "}"
  end.

(** *** Strings that are not valid UTF-8

    [json.Marshal] and the XML encoder read a string rune by rune with
    [utf8.DecodeRuneInString]; a byte that starts no valid encoding is
    the rune error of width one, for which they write U+FFFD, and they
    go on with the next byte. *)

(** The width the first byte of an encoding announces, 0 for a byte
    that starts none. *)
Definition utf8_width (c0 : ascii) : nat :=
  let a := N_of_ascii c0 in
  if a <? 128 then 1%nat
  else if a <? 194 then 0%nat
  else if a <? 224 then 2%nat
  else if a <? 240 then 3%nat
  else if a <? 245 then 4%nat
  else 0%nat.

(** The second bytes a first byte accepts. *)
Definition utf8_second (c0 c1 : ascii) : bool :=
  let a := N_of_ascii c0 in
  let b := N_of_ascii c1 in
  if a =? 224 then (160 <=? b) && (b <=? 191)
  else if a =? 237 then (128 <=? b) && (b <=? 159)
  else if a =? 240 then (144 <=? b) && (b <=? 191)
  else if a =? 244 then (128 <=? b) && (b <=? 143)
  else (128 <=? b) && (b <=? 191).

Definition utf8_cont (c : ascii) : bool :=
  (128 <=? N_of_ascii c) && (N_of_ascii c <=? 191).

(** The encoding of U+FFFD. *)
Definition RuneError : string :=
  String (ascii_of_N 239) (String (ascii_of_N 191) (String (ascii_of_N 189) EmptyString)).

(** The string with U+FFFD in place of every byte that starts no valid
    encoding. *)
Fixpoint utf8_coerce (s : string) : string :=
  match s with
  | EmptyString => EmptyString
  | String c0 s0 =>
      match utf8_width c0, s0 with
      | 1%nat, _ => String c0 (utf8_coerce s0)
      | 2%nat, String c1 s1 =>
          if utf8_second c0 c1 then String c0 (String c1 (utf8_coerce s1))
          else RuneError +:+ utf8_coerce s0
      | 3%nat, String c1 (String c2 s2) =>
          if utf8_second c0 c1 && utf8_cont c2
          then String c0 (String c1 (String c2 (utf8_coerce s2)))
          else RuneError +:+ utf8_coerce s0
      | 4%nat, String c1 (String c2 (String c3 s3)) =>
          if utf8_second c0 c1 && utf8_cont c2 && utf8_cont c3
          then String c0 (String c1 (String c2 (String c3 (utf8_coerce s3))))
          else RuneError +:+ utf8_coerce s0
      | _, _ => RuneError +:+ utf8_coerce s0
      end
  end.

(** *** MgmtErrorInfoTag: module names in place of namespaces (RFC7951) *)

Definition modmap : gmap string string :=
  list_to_map [(netconf_module, netconf_namespace);
               (yang_module, yang_namespace);
               (vyattaModule, VyattaNamespace)].

Definition lookupNamespace (module : string) : string :=
  match modmap !! module with
  | None => module
  | Some ns => ns
  end.

Definition nsmap : gmap string string :=
  list_to_map [(netconf_namespace, netconf_module);
               (yang_namespace, yang_module);
               (VyattaNamespace, vyattaModule)].

Definition lookupModule (ns : string) : string :=
  match nsmap !! ns with
  | None => ns
  | Some module => module
  end.

(** The local variable [tag] of [MgmtErrorInfoTag.MarshalJSON]: the key
    of the JSON member. *)
Definition MarshalJSON_tag (i : MgmtErrorInfoTag) : string :=
  if 0 <? N.of_nat (String.length (Space (XMLName i)))
  then lookupModule (Space (XMLName i)) +:+ ":" +:+ Local (XMLName i)
  else Local (XMLName i).

(** [MgmtErrorInfoTag.MarshalJSON] writes an opening brace, the quoted
    tag, a colon, the quoted value and a closing brace. *)
Definition MgmtErrorInfoTag_MarshalJSON (i : MgmtErrorInfoTag) : string :=
  "{" +:+ json_quote (utf8_coerce (MarshalJSON_tag i)) +:+ ":"
  +:+ json_quote (utf8_coerce (Value i)) +:+ "}".

(** The document those bytes denote: [json.Marshal] has written U+FFFD
    for the bytes of the tag and of the value that are not valid
    UTF-8. *)
Definition MgmtErrorInfoTag_json (i : MgmtErrorInfoTag) : json :=
  JObject [(utf8_coerce (MarshalJSON_tag i), JString (utf8_coerce (Value i)))].

(** [json.Unmarshal] into a [string]: a JSON string is stored, [null]
    leaves the variable as it is, anything else is an error. *)
Definition json_Unmarshal_string (old : string) (j : json) : result string :=
  match j with
  | JString s => OK s
  | JNull => OK old
  | _ => Err decode_error
  end.

(** [json.Unmarshal] into a nil [map[string]string]: the members are
    stored in order, a repeated key keeps its last value. *)
Fixpoint json_members_to_map (members : list (string * json)) (m : gmap string string)
    : result (gmap string string) :=
  match members with
  | [] => OK m
  | (k, v) :: rest =>
      s ← json_Unmarshal_string "" v;
      json_members_to_map rest (<[k := s]> m)
  end.

Definition json_Unmarshal_map (j : json) : result (gmap string string) :=
  match j with
  | JObject members => json_members_to_map members ∅
  | JNull => OK ∅
  | _ => Err decode_error
  end.

(** [MgmtErrorInfoTag.UnmarshalJSON]; the receiver [i] keeps the fields
    the body does not assign. *)
Definition MgmtErrorInfoTag_UnmarshalJSON (i : MgmtErrorInfoTag) (value : json)
    : result MgmtErrorInfoTag :=
  obj ← json_Unmarshal_map value;
  match map_to_list obj with
  | [(k, v)] =>
      let s := strings.Split k ":"%char in
      match s with
      | [s0; s1] =>
          OK {| XMLName := {| Space := lookupNamespace s0; Local := s1 |}; Value := v |}
      | s0 :: _ =>
          OK {| XMLName := {| Space := Space (XMLName i); Local := s0 |}; Value := v |}
      | [] => Panic
      end
  | _ => Err malformed_error_info_tag
  end.

Definition zeroInfoTag : MgmtErrorInfoTag :=
  {| XMLName := {| Space := ""; Local := "" |}; Value := "" |}.

(** *** MgmtError as a JSON object *)

(** [json.Marshal] of a string field: the string with U+FFFD for the
    bytes that are not valid UTF-8. *)
Definition json_string (s : string) : json := JString (utf8_coerce s).

Definition json_omitempty (key s : string) : list (string * json) :=
  if String.eqb s "" then [] else [(key, json_string s)].

(** [json.Marshal] of a [MgmtError] (directly or through the embedded
    pointer of a wrapper): the tagged fields in declaration order, the
    [omitempty] ones only when not empty; XMLName is tagged "-". *)
Definition MgmtError_json (e : MgmtError) : json :=
  JObject
    ([("error-type", json_string (Typ e));
      ("error-tag", json_string (Tag e));
      ("error-severity", json_string (Severity e))]
     ++ json_omitempty "error-app-tag" (AppTag e)
     ++ json_omitempty "error-path" (Path e)
     ++ json_omitempty "error-message" (Message e)
     ++ match Info e with
        | [] => []
        | _ :: _ => [("error-info", JArray (map MgmtErrorInfoTag_json (Info e)))]
        end).

(** Decoding an array into the slice [Info]: element [n] is decoded into
    the element already at index [n], or into a zero element. *)
Fixpoint json_Unmarshal_tags (old : MgmtErrorInfo) (elems : list json)
    : result MgmtErrorInfo :=
  match elems with
  | [] => OK []
  | j :: rest =>
      t ← MgmtErrorInfoTag_UnmarshalJSON (hd zeroInfoTag old) j;
      ts ← json_Unmarshal_tags (tl old) rest;
      OK (t :: ts)
  end.

Definition json_Unmarshal_Info (old : MgmtErrorInfo) (j : json) : result MgmtErrorInfo :=
  match j with
  | JArray elems => json_Unmarshal_tags old elems
  | JNull => OK []
  | _ => Err decode_error
  end.

(** Keys are matched with the field names without regard to the case of
    ASCII letters. *)
Definition ascii_lower (c : ascii) : ascii :=
  if strings.is_upper c then ascii_of_N (N_of_ascii c + 32) else c.

Fixpoint string_lower (s : string) : string :=
  match s with
  | EmptyString => EmptyString
  | String c s' => String (ascii_lower c) (string_lower s')
  end.

Definition set_Typ (e : MgmtError) (s : string) : MgmtError :=
  {| Name := Name e; Typ := s; Tag := Tag e; Severity := Severity e;
     AppTag := AppTag e; Path := Path e; Message := Message e; Info := Info e |}.
Definition set_Tag (e : MgmtError) (s : string) : MgmtError :=
  {| Name := Name e; Typ := Typ e; Tag := s; Severity := Severity e;
     AppTag := AppTag e; Path := Path e; Message := Message e; Info := Info e |}.
Definition set_Severity (e : MgmtError) (s : string) : MgmtError :=
  {| Name := Name e; Typ := Typ e; Tag := Tag e; Severity := s;
     AppTag := AppTag e; Path := Path e; Message := Message e; Info := Info e |}.
Definition set_AppTag (e : MgmtError) (s : string) : MgmtError :=
  {| Name := Name e; Typ := Typ e; Tag := Tag e; Severity := Severity e;
     AppTag := s; Path := Path e; Message := Message e; Info := Info e |}.
Definition set_Name (e : MgmtError) (n : xml_Name) : MgmtError :=
  {| Name := n; Typ := Typ e; Tag := Tag e; Severity := Severity e;
     AppTag := AppTag e; Path := Path e; Message := Message e; Info := Info e |}.

Definition json_set_field (e : MgmtError) (key : string) (v : json) : result MgmtError :=
  let k := string_lower key in
  if String.eqb k "error-type" then set_Typ e <$> json_Unmarshal_string (Typ e) v
  else if String.eqb k "error-tag" then set_Tag e <$> json_Unmarshal_string (Tag e) v
  else if String.eqb k "error-severity"
       then set_Severity e <$> json_Unmarshal_string (Severity e) v
  else if String.eqb k "error-app-tag"
       then set_AppTag e <$> json_Unmarshal_string (AppTag e) v
  else if String.eqb k "error-path" then set_Path e <$> json_Unmarshal_string (Path e) v
  else if String.eqb k "error-message"
       then set_Message e <$> json_Unmarshal_string (Message e) v
  else if String.eqb k "error-info" then set_Info e <$> json_Unmarshal_Info (Info e) v
  else OK e.

Fixpoint json_set_fields (e : MgmtError) (members : list (string * json))
    : result MgmtError :=
  match members with
  | [] => OK e
  | (k, v) :: rest => e' ← json_set_field e k v; json_set_fields e' rest
  end.

(** [json.Unmarshal(value, e)] for [e : *MgmtError]. *)
Definition json_Unmarshal_MgmtError (e : MgmtError) (value : json) : result MgmtError :=
  match value with
  | JObject members => json_set_fields e members
  | JNull => OK e
  | _ => Err decode_error
  end.

(** The [UnmarshalJSON] method every wrapper type defines. *)
Definition TypedError_UnmarshalJSON (k : ErrKind) (value : json) : result TypedError :=
  mkTyped k <$> json_Unmarshal_MgmtError newMgmtError value.

(** [json.Marshal] of a wrapper: the fields of the embedded record. *)
Definition TypedError_json (t : TypedError) : json := MgmtError_json (rec t).

(** ** XML documents (encoding/xml) *)

(** An element as written: its local name, the [xmlns] attribute when
    one is written, and its content.  The encoder writes no prefixed
    name and no other attribute. *)
Inductive xml_node : Type :=
  | XText (s : string)
  | XElem (name : string) (xmlns : option string) (children : list xml_node).

(** The characters XML allows are tab, line feed, carriage return,
    U+0020 to U+D7FF, U+E000 to U+FFFD and U+10000 to U+10FFFF; the
    encoder writes U+FFFD for every other character and for every byte
    that is not valid UTF-8.  In a valid encoding the characters not
    allowed are the control characters below U+0020 and U+FFFE,
    U+FFFF. *)
Definition xml_control (c : ascii) : bool :=
  let n := N_of_ascii c in
  (n <? 32) && negb ((n =? 9) || (n =? 10) || (n =? 13)).

Fixpoint xml_replace (s : string) : string :=
  match s with
  | EmptyString => EmptyString
  | String c0 s0 =>
      if xml_control c0 then RuneError +:+ xml_replace s0
      else match s0 with
           | String c1 (String c2 s2) =>
               if (N_of_ascii c0 =? 239) && (N_of_ascii c1 =? 191) && (190 <=? N_of_ascii c2)
               then RuneError +:+ xml_replace s2
               else String c0 (xml_replace s0)
           | _ => String c0 (xml_replace s0)
           end
  end.

(** The text the encoder writes for a string, as a reader of the
    document finds it. *)
Definition xml_coerce (s : string) : string := xml_replace (utf8_coerce s).

Definition xml_text (s : string) : list xml_node :=
  if String.eqb s "" then [] else [XText (xml_coerce s)].

(** The start tag of a struct with an XMLName field: the field's value
    when its local name is set, the Go type name without namespace
    otherwise; [xmlns] is written for a non-empty namespace. *)
Definition xml_start (n : xml_Name) (typename : string) (children : list xml_node)
    : xml_node :=
  if String.eqb (Local n) "" then XElem typename None children
  else XElem (Local n)
         (if String.eqb (Space n) "" then None else Some (xml_coerce (Space n))) children.

(** [enc.Encode(v)] for [v : MgmtErrorInfoTag]: the value is the
    character data of the element. *)
Definition MgmtErrorInfoTag_xml (i : MgmtErrorInfoTag) : xml_node :=
  xml_start (XMLName i) "MgmtErrorInfoTag" (xml_text (Value i)).

(** [MgmtErrorInfo.MarshalXML]: an [error-info] start tag without
    namespace, the tags in order, the end tag. *)
Definition MgmtErrorInfo_MarshalXML (e : MgmtErrorInfo) : xml_node :=
  XElem "error-info" None (map MgmtErrorInfoTag_xml e).

Definition xml_field (name s : string) : xml_node := XElem name None (xml_text s).

Definition xml_omitempty (name s : string) : list xml_node :=
  if String.eqb s "" then [] else [xml_field name s].

(** [enc.Encode(e)] for [e : *MgmtError]. *)
Definition MgmtError_xml (e : MgmtError) : xml_node :=
  xml_start (Name e) "MgmtError"
    ([xml_field "error-type" (Typ e);
      xml_field "error-tag" (Tag e);
      xml_field "error-severity" (Severity e)]
     ++ xml_omitempty "error-app-tag" (AppTag e)
     ++ xml_omitempty "error-path" (Path e)
     ++ xml_omitempty "error-message" (Message e)
     ++ match Info e with
        | [] => []
        | _ :: _ => [MgmtErrorInfo_MarshalXML (Info e)]
        end).

(** The [MarshalXML] method every wrapper type defines encodes the
    embedded record. *)
Definition TypedError_MarshalXML (t : TypedError) : xml_node := MgmtError_xml (rec t).

(** Reading: the decoder gives an element without prefix the default
    namespace in scope, which an [xmlns] attribute sets for the element
    and its content. *)
Definition xml_space (dflt : string) (xmlns : option string) : string :=
  match xmlns with Some ns => ns | None => dflt end.

(** The character data directly inside an element. *)
Fixpoint xml_chardata (children : list xml_node) : string :=
  match children with
  | [] => ""
  | XText s :: rest => s +:+ xml_chardata rest
  | XElem _ _ _ :: rest => xml_chardata rest
  end.

(** [MgmtErrorInfo.UnmarshalXML]: every start element up to the end tag
    of [error-info] is decoded into a fresh tag; other tokens are
    skipped. *)
Fixpoint MgmtErrorInfo_UnmarshalXML (dflt : string) (children : list xml_node)
    : MgmtErrorInfo :=
  match children with
  | [] => []
  | XText _ :: rest => MgmtErrorInfo_UnmarshalXML dflt rest
  | XElem name xmlns sub :: rest =>
      {| XMLName := {| Space := xml_space dflt xmlns; Local := name |};
         Value := xml_chardata sub |}
      :: MgmtErrorInfo_UnmarshalXML dflt rest
  end.

Definition xml_set_field (e : MgmtError) (dflt : string) (child : xml_node) : MgmtError :=
  match child with
  | XText _ => e
  | XElem name xmlns sub =>
      if String.eqb name "error-type" then set_Typ e (xml_chardata sub)
      else if String.eqb name "error-tag" then set_Tag e (xml_chardata sub)
      else if String.eqb name "error-severity" then set_Severity e (xml_chardata sub)
      else if String.eqb name "error-app-tag" then set_AppTag e (xml_chardata sub)
      else if String.eqb name "error-path" then set_Path e (xml_chardata sub)
      else if String.eqb name "error-message" then set_Message e (xml_chardata sub)
      else if String.eqb name "error-info"
           then set_Info e (MgmtErrorInfo_UnmarshalXML (xml_space dflt xmlns) sub)
      else e
  end.

(** [xml.Unmarshal(data, e)] for [e : *MgmtError]: XMLName receives the
    name of the root element, each child element sets the field tagged
    with its name. *)
Definition xml_Unmarshal_MgmtError (e : MgmtError) (doc : xml_node) : result MgmtError :=
  match doc with
  | XText _ => Err decode_error
  | XElem name xmlns children =>
      let space := xml_space "" xmlns in
      OK (fold_left (fun acc c => xml_set_field acc space c) children
            (set_Name e {| Space := space; Local := name |}))
  end.

(** Writing the elements of a list into a buffer with a separator before
    every element but the first: the loop
    [for i, m := range l { if i > 0 { b.WriteString(sep) }; b.WriteString(m) }]. *)
Fixpoint write_joined (sep : string) (i : nat) (l : list string) : string :=
  match l with
  | [] => ""
  | m :: rest =>
      (if (0 <? i)%nat then sep else "") +:+ m +:+ write_joined sep (S i) rest
  end.

(** [errpath] of ncerror.go; [fmt.Sprintf] with the verb [%s] prints a
    slice of strings between brackets, separated by spaces. *)
Definition Sprintf_slice (path : list string) : string :=
  "[" +:+ strings.Join path " " +:+ "]".

Definition errpath (path : list string) : string :=
  if (length path <? 2)%nat then Sprintf_slice path
  else strings.Join (removelast path) " " +:+ " [" +:+ List.last path "" +:+ "]".

(** [missingElemErrorString] and [unknownElemErrorString] index
    [e.Info[0]]; on an empty slice the index expression panics, after
    nothing but buffer writes. *)
Definition missingElemErrorString (e : MgmtError) : result string :=
  match Info e with
  | [] => Panic
  | i0 :: _ =>
      OK (strings.Title (Severity e) +:+ error_msg_separator
          +:+ (if String.eqb (Path e) "" then "" else Path e)
          +:+ "/" +:+ Value i0
          +:+ (if String.eqb (Message e) "" then ""
               else error_msg_separator +:+ Message e))
  end.

Definition unknownElemErrorString (e : MgmtError) : result string :=
  match Info e with
  | [] => Panic
  | i0 :: _ =>
      OK (strings.Title (Severity e) +:+ error_msg_separator
          +:+ (if String.eqb (Path e) "" then "" else Path e)
          +:+ "/" +:+ Value i0
          +:+ (if String.eqb (Message e) "" then ""
               else error_msg_separator +:+ Message e))
  end.

(** [NonUniqueError.Error]. *)
Definition NonUniqueError_Error (e : MgmtError) : string :=
  if (length (Info e) <? 2)%nat then MgmtError_Error e
  else strings.Title (Severity e) +:+ error_msg_separator
       +:+ Path e +:+ error_msg_separator
       +:+ "Non-unique paths "
       +:+ write_joined ", " 0
             (map (fun p => strings.TrimPrefix (Value p) (Path e +:+ "/")) (Info e)).

(** ** Code that calls the packages pathutil and natsort

    [pathutil.Pathstr], [pathutil.Makepath] and [natsort.Sort] belong to
    github.com/danos/utils; they are parameters of the development. *)
Section Externals.

Variable pathutil_Pathstr : list string -> string.
Variable pathutil_Makepath : string -> list string.
Variable natsort_Sort : list string -> list string.

(** *** The constructors of vyerror.go *)

Definition NewExecError (path : list string) (out : string) : result TypedError :=
  err ← newVyattaError vyatta_operation_failed (vyErrAppTagId_String exec_failed)
          (pathutil_Pathstr path) None;
  OK (createExecError (set_Message err out)).

(** [NewPathAmbiguousError]: [matches] is a Go map, and [range] may
    visit its entries in any order; [visit] is the sequence of entries
    of one run of the loop. *)
Definition NewPathAmbiguousError (path : list string) (visit : list (string * string))
    : result TypedError :=
  let info := map (fun kv => NewMgmtErrorInfoTag VyattaNamespace (fst kv) (snd kv)) visit in
  createPathAmbigError <$>
    newVyattaError vyatta_operation_failed (vyErrAppTagId_String path_ambig)
      (pathutil_Pathstr path) (Some info).

(** A sequence [visit] is a run of [range matches]. *)
Definition range_of (matches : gmap string string) (visit : list (string * string))
    : Prop :=
  visit ≡ₚ map_to_list matches.

(** [PathAmbiguousError.Error]. *)
Definition PathAmbiguousError_Error (e : MgmtError) : string :=
  let mlist := natsort_Sort (map (fun t => Local (XMLName t)) (Info e)) in
  strings.Title (Severity e) +:+ error_msg_separator
  +:+ (if (String.length (Path e) =? 0)%nat then "Ambiguous command"
       else Path e +:+ error_msg_separator +:+ "Ambiguous path")
  +:+ ", could be one of: "
  +:+ write_joined ", " 0 mlist.

(** [UnknownElementProtocolError.GetMessage] and
    [UnknownElementApplicationError.GetMessage] (the same body). *)
Definition UnknownElementError_GetMessage (e : MgmtError) : result string :=
  match Info e with
  | [] => Panic
  | i0 :: _ =>
      OK (errpath (pathutil_Makepath (Path e +:+ "/" +:+ Value i0)) +:+ " is not valid")
  end.

(** *** The method [Error] of the wrapper types *)


Definition TypedError_Error (t : TypedError) : result string :=
  match kind t with
  | NonUniqueError => OK (NonUniqueError_Error (rec t))
  | MissingElementProtocolError | MissingElementApplicationError =>
      missingElemErrorString (rec t)
  | UnknownElementProtocolError | UnknownElementApplicationError =>
      unknownElemErrorString (rec t)
  | PathAmbiguousError => OK (PathAmbiguousError_Error (rec t))
  | _ => OK (MgmtError_Error (rec t))
  end.

(** The wrapper types that define their own [GetMessage]. *)
Definition UnknownElement_kind (k : ErrKind) : bool :=
  match k with
  | UnknownElementProtocolError | UnknownElementApplicationError => true
  | _ => false
  end.

Definition MissingElement_kind (k : ErrKind) : bool :=
  match k with
  | MissingElementProtocolError | MissingElementApplicationError => true
  | _ => false
  end.

(** *** Values of the interface [error] *)

(** What [Formattable] gives access to. *)
Record Formattable : Type := mkFormattable {
  GetMessage : string;
  GetPath : string;
  GetSeverity : string;
  GetTag : string;
  GetAppTag : string;
  GetType : string;
  GetInfo : MgmtErrorInfo
}.

(** An error value of a type defined outside the package: its string
    form, the interfaces its type implements, and what the encoders
    produce for it. *)
Record ForeignError : Type := mkForeign {
  fe_Error : string;
  fe_json_Marshaler : bool;
  fe_xml_Marshaler : bool;
  fe_Formattable : option Formattable;
  fe_json : result string;
  fe_xml : result (list xml_node)
}.

Inductive error : Type :=
  | ETyped (t : TypedError)     (* a pointer to one of the wrapper types *)
  | EMgmt (e : MgmtError)       (* a [*MgmtError] *)
  | EForeign (f : ForeignError)
  | ENil                        (* the nil interface value *)
  | ENilMgmt.                   (* a nil [*MgmtError] *)

(** The wrapper types define [MarshalXML]; [*MgmtError] defines neither
    [MarshalJSON] nor [MarshalXML]; the nil interface value has no
    dynamic type and implements no interface. *)
Definition is_Marshaler (e : error) : bool :=
  match e with
  | ETyped _ => true
  | EMgmt _ => false
  | EForeign f => fe_json_Marshaler f || fe_xml_Marshaler f
  | ENil => false
  | ENilMgmt => false
  end.

(** [e.Error()]: a method call on the nil interface value panics, and
    [MgmtError.Error], whose receiver is a value, dereferences the
    pointer. *)
Definition error_Error (e : error) : result string :=
  match e with
  | ETyped t => TypedError_Error t
  | EMgmt m => OK (MgmtError_Error m)
  | EForeign f => OK (fe_Error f)
  | ENil => Panic
  | ENilMgmt => Panic
  end.

(** ** mgmterrorlist.go *)

Record MgmtErrorList : Type := mkList { errs : list error }.

(** [mkMgmtError]: the type switch tries the marshalers first, then
    [Formattable], then the default.  The nil interface value reaches
    the default case, where [e.Error()] panics; a nil [*MgmtError] is
    [Formattable], and [me.GetMessage()] dereferences it. *)
Definition mkMgmtError (e : error) : result error :=
  match e with
  | ETyped _ => OK e
  | EMgmt me =>
      err ← NewOperationFailedApplicationError;
      OK (ETyped {| kind := kind err;
                    rec := set_Path (set_Message (rec err) (Message me)) (Path me) |})
  | EForeign f =>
      if fe_json_Marshaler f || fe_xml_Marshaler f then OK e
      else match fe_Formattable f with
           | Some me =>
               err ← NewOperationFailedApplicationError;
               OK (ETyped {| kind := kind err;
                             rec := set_Path (set_Message (rec err) (GetMessage me))
                                      (GetPath me) |})
           | None =>
               err ← NewOperationFailedApplicationError;
               OK (ETyped {| kind := kind err;
                             rec := set_Message (rec err) (fe_Error f) |})
           end
  | ENil => _ ← NewOperationFailedApplicationError; Panic
  | ENilMgmt => _ ← NewOperationFailedApplicationError; Panic
  end.

(** [MgmtErrorListAppend]. *)
Fixpoint MgmtErrorListAppend (e : MgmtErrorList) (errors : list error)
    : result MgmtErrorList :=
  match errors with
  | [] => OK e
  | err :: rest =>
      n ← mkMgmtError err;
      MgmtErrorListAppend {| errs := errs e ++ [n] |} rest
  end.

(** [json.Marshal(err)] for a member of the list; a nil value is
    written as [null]. *)
Definition json_Marshal (e : error) : result string :=
  match e with
  | ETyped t => OK (render (TypedError_json t))
  | EMgmt m => OK (render (MgmtError_json m))
  | EForeign f => fe_json f
  | ENil => OK (render JNull)
  | ENilMgmt => OK (render JNull)
  end.

(** [MgmtErrorList.MarshalJSON]; on an error Go returns it together
    with the bytes written so far, of which only the error is kept. *)
Fixpoint MarshalJSON_loop (out : string) (i : nat) (l : list error) : result string :=
  match l with
  | [] => OK out
  | err :: rest =>
      b ← json_Marshal err;
      MarshalJSON_loop (out +:+ (if (0 <? i)%nat then "," else "") +:+ b) (S i) rest
  end.

Definition MgmtErrorList_MarshalJSON (e : MgmtErrorList) : result string :=
  out ← MarshalJSON_loop ("{" +:+ dquote +:+ "error-list" +:+ dquote +:+ ":[") 0 (errs e);
  OK (out +:+ "]}").

(** [enc.Encode(err)] for a member of the list; nothing is written for
    a nil value. *)
Definition xml_Encode (e : error) : result (list xml_node) :=
  match e with
  | ETyped t => OK [TypedError_MarshalXML t]
  | EMgmt m => OK [MgmtError_xml m]
  | EForeign f => fe_xml f
  | ENil => OK []
  | ENilMgmt => OK []
  end.

(** [MgmtErrorList.MarshalXML]: the elements written to the encoder. *)
Fixpoint MarshalXML_loop (l : list error) : result (list xml_node) :=
  match l with
  | [] => OK []
  | err :: rest =>
      x ← xml_Encode err;
      xs ← MarshalXML_loop rest;
      OK (x ++ xs)
  end.

Definition MgmtErrorList_MarshalXML (e : MgmtErrorList) : result (list xml_node) :=
  MarshalXML_loop (errs e).

(** The reverse classifier of [MgmtErrorList.UnmarshalJSON]: the vendor
    catalog, then YANG, then the base protocol; an unclassified record
    is appended as it is. *)
Definition classify (err : MgmtError) : error :=
  match getVyattaError err with
  | Some vyerr => ETyped vyerr
  | None =>
      match getYangError err with
      | Some yerr => ETyped yerr
      | None =>
          match getNetconfError err with
          | Some ncerr => ETyped ncerr
          | None => EMgmt err
          end
      end
  end.

(** Decoding the array under [error-list] into a slice of pointers:
    [null] gives a nil pointer, an object is decoded into the record
    the pointer at that index already refers to, or a new one. *)
Fixpoint json_Unmarshal_ptrs (old : list (option MgmtError)) (elems : list json)
    : result (list (option MgmtError)) :=
  match elems with
  | [] => OK []
  | j :: rest =>
      p ← match j with
          | JNull => OK None
          | _ => Some <$> json_Unmarshal_MgmtError
                            (default zeroMgmtError (mjoin (head old))) j
          end;
      ps ← json_Unmarshal_ptrs (tail old) rest;
      OK (p :: ps)
  end.

Fixpoint json_Unmarshal_ErrorList (old : list (option MgmtError))
    (members : list (string * json)) : result (list (option MgmtError)) :=
  match members with
  | [] => OK old
  | (k, v) :: rest =>
      if String.eqb (string_lower k) "error-list"
      then match v with
           | JArray elems =>
               l ← json_Unmarshal_ptrs old elems; json_Unmarshal_ErrorList l rest
           | JNull => json_Unmarshal_ErrorList [] rest
           | _ => Err decode_error
           end
      else json_Unmarshal_ErrorList old rest
  end.

(** The loop of [UnmarshalJSON]; [err.setXMLName()] dereferences the
    pointer. *)
Fixpoint UnmarshalJSON_loop (e : MgmtErrorList) (l : list (option MgmtError))
    : result MgmtErrorList :=
  match l with
  | [] => OK e
  | None :: _ => Panic
  | Some err :: rest =>
      e' ← MgmtErrorListAppend e [classify (setXMLName err)];
      UnmarshalJSON_loop e' rest
  end.

Definition MgmtErrorList_UnmarshalJSON (value : json) : result MgmtErrorList :=
  match value with
  | JObject members =>
      l ← json_Unmarshal_ErrorList [] members;
      UnmarshalJSON_loop {| errs := [] |} l
  | JNull => UnmarshalJSON_loop {| errs := [] |} []
  | _ => Err decode_error
  end.

(** [MgmtErrorList.Error]. *)
Fixpoint Error_loop (i : nat) (l : list error) : result string :=
  match l with
  | [] => OK ""
  | err :: rest =>
      s ← error_Error err;
      r ← Error_loop (S i) rest;
      OK ((if (0 <? i)%nat then String (ascii_of_N 10) EmptyString else "") +:+ s +:+ r)
  end.

Definition MgmtErrorList_Error (e : MgmtErrorList) : result string :=
  Error_loop 0 (errs e).

End Externals.

(** * Notions used in the statements *)

(** Success of a call. *)
Definition succeeds {A} (r : result A) : Prop := exists a, r = OK a.

(** The concatenation of the strings of a list. *)
Fixpoint concat_all (l : list string) : string :=
  match l with
  | [] => ""
  | x :: rest => x +:+ concat_all rest
  end.

(** The generic operation-failed/application wrapper with a message and
    a path. *)
Definition generic_operation_failed (msg path : string) : error :=
  ETyped {| kind := OperationFailedApplicationError;
            rec := {| Name := {| Space := netconf_namespace; Local := "rpc-error" |};
                      Typ := "application";
                      Tag := "operation-failed";
                      Severity := "error";
                      AppTag := "";
                      Path := path;
                      Message := msg;
                      Info := [] |} |}.

(** Values appended to a list are typed wrappers unless they are foreign
    marshalers. *)
Definition is_typed (e : error) : bool :=
  match e with ETyped _ => true | _ => false end.

(** A string of ASCII letters, digits and underscores: one word for
    [strings.Title]. *)
Fixpoint one_word (s : string) : bool :=
  match s with
  | EmptyString => true
  | String c s' =>
      (N_of_ascii c <=? 127) && negb (strings.isSeparator c) && one_word s'
  end.


(** The bad-element entry of the element errors. *)
Definition bad_element_tag (badElem : string) : MgmtErrorInfoTag :=
  {| XMLName := {| Space := ""; Local := "bad-element" |}; Value := badElem |}.

(** A stand-in for [pathutil.Pathstr] and [natsort] in the examples: the
    elements each preceded by a slash, and the bytewise order of
    strings. *)
Definition Pathstr_slashes (path : list string) : string :=
  concat_all (map (fun s => "/" +:+ s) path).


Definition bytewise_Sort (l : list string) : list string := merge_sort String.le l.

(** A string without the separator of module name and local name. *)
Fixpoint no_colon (s : string) : bool :=
  match s with
  | EmptyString => true
  | String c s' => negb (Ascii.eqb c ":"%char) && no_colon s'
  end.

(** The namespaces and the module names of the table. *)
Definition known_namespace (ns : string) : bool := bool_decide (is_Some (nsmap !! ns)).
Definition known_module (m : string) : bool := bool_decide (is_Some (modmap !! m)).

(** The tags that the JSON encoding transmits: a local name without
    colon, under no namespace, under a namespace of the table, or under
    a namespace without colon that is not a module name of the table. *)
Definition tag_json_ok (i : MgmtErrorInfoTag) : bool :=
  no_colon (Local (XMLName i))
  && (String.eqb (Space (XMLName i)) ""
      || known_namespace (Space (XMLName i))
      || (no_colon (Space (XMLName i)) && negb (known_module (Space (XMLName i))))).


(** A string that [json.Marshal] writes as it is: every byte of it
    belongs to a valid UTF-8 encoding. *)
Definition utf8_ok (s : string) : bool := String.eqb (utf8_coerce s) s.

Definition tag_utf8_ok (i : MgmtErrorInfoTag) : bool :=
  utf8_ok (Space (XMLName i)) && utf8_ok (Local (XMLName i)) && utf8_ok (Value i).

(** A record whose strings are valid UTF-8. *)
Definition record_utf8_ok (e : MgmtError) : bool :=
  utf8_ok (Typ e) && utf8_ok (Tag e) && utf8_ok (Severity e) && utf8_ok (AppTag e)
  && utf8_ok (Path e) && utf8_ok (Message e) && forallb tag_utf8_ok (Info e).




(** The records the JSON encoding transmits: strings of valid UTF-8 and
    tags that the tag codec transmits. *)
Definition record_json_ok (e : MgmtError) : bool :=
  record_utf8_ok e && forallb tag_json_ok (Info e).

(** The name [setXMLName] gives every record. *)
Definition rpc_error_name : xml_Name :=
  {| Space := netconf_namespace; Local := "rpc-error" |}.


(** ** The public constructors

    One constructor of [Ctor] for each exported [New...Error] function
    with its arguments; [build] is the call. *)
Inductive Ctor : Type :=
  | CNewInUseProtocolError
  | CNewInUseApplicationError
  | CNewInvalidValueProtocolError
  | CNewInvalidValueApplicationError
  | CNewTooBigTransportError
  | CNewTooBigRpcError
  | CNewTooBigProtocolError
  | CNewTooBigApplicationError
  | CNewMissingAttrRpcError (badAttr : string) (badElem : string)
  | CNewMissingAttrProtocolError (badAttr : string) (badElem : string)
  | CNewMissingAttrApplicationError (badAttr : string) (badElem : string)
  | CNewBadAttrRpcError (badAttr : string) (badElem : string)
  | CNewBadAttrProtocolError (badAttr : string) (badElem : string)
  | CNewBadAttrApplicationError (badAttr : string) (badElem : string)
  | CNewUnknownAttrRpcError (badAttr : string) (badElem : string)
  | CNewUnknownAttrProtocolError (badAttr : string) (badElem : string)
  | CNewUnknownAttrApplicationError (badAttr : string) (badElem : string)
  | CNewMissingElementProtocolError (badElem : string)
  | CNewMissingElementApplicationError (badElem : string)
  | CNewBadElementProtocolError (badElem : string)
  | CNewBadElementApplicationError (badElem : string)
  | CNewUnknownElementProtocolError (badElem : string)
  | CNewUnknownElementApplicationError (badElem : string)
  | CNewUnknownNamespaceProtocolError (badElem : string) (badNS : string)
  | CNewUnknownNamespaceApplicationError (badElem : string) (badNS : string)
  | CNewAccessDeniedProtocolError
  | CNewAccessDeniedApplicationError
  | CNewLockDeniedError (sess : string)
  | CNewResourceDeniedTransportError
  | CNewResourceDeniedRpcError
  | CNewResourceDeniedProtocolError
  | CNewResourceDeniedApplicationError
  | CNewRollbackFailedProtocolError
  | CNewRollbackFailedApplicationError
  | CNewDataExistsError
  | CNewDataMissingError
  | CNewOperationNotSupportedProtocolError
  | CNewOperationNotSupportedApplicationError
  | CNewOperationFailedProtocolError
  | CNewOperationFailedApplicationError
  | CNewOperationFailedRpcError
  | CNewMalformedMessageError
  | CNewNonUniqueError (paths : list string)
  | CNewTooManyElementsError (path : string)
  | CNewTooFewElementsError (path : string)
  | CNewMustViolationError
  | CNewInstanceRequiredError (path : string)
  | CNewLeafrefMismatchError (path : string) (lrefPath : string)
  | CNewMissingChoiceError (path : string) (name : string)
  | CNewInsertFailedError
  | CNewExecError (path : list string) (out : string)
  | CNewPathAmbiguousError (path : list string) (visit : list (string * string)).

Section Build.

Variable pathutil_Pathstr : list string -> string.

Definition build (c : Ctor) : result TypedError :=
  match c with
  | CNewInUseProtocolError => NewInUseProtocolError
  | CNewInUseApplicationError => NewInUseApplicationError
  | CNewInvalidValueProtocolError => NewInvalidValueProtocolError
  | CNewInvalidValueApplicationError => NewInvalidValueApplicationError
  | CNewTooBigTransportError => NewTooBigTransportError
  | CNewTooBigRpcError => NewTooBigRpcError
  | CNewTooBigProtocolError => NewTooBigProtocolError
  | CNewTooBigApplicationError => NewTooBigApplicationError
  | CNewMissingAttrRpcError badAttr badElem => NewMissingAttrRpcError badAttr badElem
  | CNewMissingAttrProtocolError badAttr badElem => NewMissingAttrProtocolError badAttr badElem
  | CNewMissingAttrApplicationError badAttr badElem => NewMissingAttrApplicationError badAttr badElem
  | CNewBadAttrRpcError badAttr badElem => NewBadAttrRpcError badAttr badElem
  | CNewBadAttrProtocolError badAttr badElem => NewBadAttrProtocolError badAttr badElem
  | CNewBadAttrApplicationError badAttr badElem => NewBadAttrApplicationError badAttr badElem
  | CNewUnknownAttrRpcError badAttr badElem => NewUnknownAttrRpcError badAttr badElem
  | CNewUnknownAttrProtocolError badAttr badElem => NewUnknownAttrProtocolError badAttr badElem
  | CNewUnknownAttrApplicationError badAttr badElem => NewUnknownAttrApplicationError badAttr badElem
  | CNewMissingElementProtocolError badElem => NewMissingElementProtocolError badElem
  | CNewMissingElementApplicationError badElem => NewMissingElementApplicationError badElem
  | CNewBadElementProtocolError badElem => NewBadElementProtocolError badElem
  | CNewBadElementApplicationError badElem => NewBadElementApplicationError badElem
  | CNewUnknownElementProtocolError badElem => NewUnknownElementProtocolError badElem
  | CNewUnknownElementApplicationError badElem => NewUnknownElementApplicationError badElem
  | CNewUnknownNamespaceProtocolError badElem badNS => NewUnknownNamespaceProtocolError badElem badNS
  | CNewUnknownNamespaceApplicationError badElem badNS => NewUnknownNamespaceApplicationError badElem badNS
  | CNewAccessDeniedProtocolError => NewAccessDeniedProtocolError
  | CNewAccessDeniedApplicationError => NewAccessDeniedApplicationError
  | CNewLockDeniedError sess => NewLockDeniedError sess
  | CNewResourceDeniedTransportError => NewResourceDeniedTransportError
  | CNewResourceDeniedRpcError => NewResourceDeniedRpcError
  | CNewResourceDeniedProtocolError => NewResourceDeniedProtocolError
  | CNewResourceDeniedApplicationError => NewResourceDeniedApplicationError
  | CNewRollbackFailedProtocolError => NewRollbackFailedProtocolError
  | CNewRollbackFailedApplicationError => NewRollbackFailedApplicationError
  | CNewDataExistsError => NewDataExistsError
  | CNewDataMissingError => NewDataMissingError
  | CNewOperationNotSupportedProtocolError => NewOperationNotSupportedProtocolError
  | CNewOperationNotSupportedApplicationError => NewOperationNotSupportedApplicationError
  | CNewOperationFailedProtocolError => NewOperationFailedProtocolError
  | CNewOperationFailedApplicationError => NewOperationFailedApplicationError
  | CNewOperationFailedRpcError => NewOperationFailedRpcError
  | CNewMalformedMessageError => NewMalformedMessageError
  | CNewNonUniqueError paths => NewNonUniqueError paths
  | CNewTooManyElementsError path => NewTooManyElementsError path
  | CNewTooFewElementsError path => NewTooFewElementsError path
  | CNewMustViolationError => NewMustViolationError
  | CNewInstanceRequiredError path => NewInstanceRequiredError path
  | CNewLeafrefMismatchError path lrefPath => NewLeafrefMismatchError path lrefPath
  | CNewMissingChoiceError path name => NewMissingChoiceError path name
  | CNewInsertFailedError => NewInsertFailedError
  | CNewExecError path out => NewExecError pathutil_Pathstr path out
  | CNewPathAmbiguousError path visit => NewPathAmbiguousError pathutil_Pathstr path visit
  end.

End Build.









(** * More of the package *)

(** The errors the [set] methods of the enumerations create. *)
Inductive seterr : Type :=
  | Invalid_error_target     (* "Invalid error target" *)
  | Invalid_error_tag        (* "Invalid error tag" *)
  | Invalid_YANG_error_tag.  (* "Invalid YANG error tag" *)

(** [errtype.set], [ncerrtag.set] and [yerrtag.set]: the receiver after
    the call, and the error returned ([None] is nil).  The receiver is
    assigned only when the name is a key of the map. *)
Definition errtype_set (t : errtype) (typ : string) : errtype * option seterr :=
  match errtypemap !! typ with
  | Some v => (v, None)
  | None => (t, Some Invalid_error_target)
  end.

Definition ncerrtag_set (t : ncerrtag) (tag : string) : ncerrtag * option seterr :=
  match ncerrtagmap !! tag with
  | Some v => (v, None)
  | None => (t, Some Invalid_error_tag)
  end.

Definition yerrtag_set (t : yerrtag) (tag : string) : yerrtag * option seterr :=
  match errtagmap !! tag with
  | Some v => (v, None)
  | None => (t, Some Invalid_YANG_error_tag)
  end.

(** [MgmtErrorList.Errors]. *)
Definition MgmtErrorList_Errors (e : MgmtErrorList) : list error := errs e.

(** [MgmtErrorList.CustomError]: [fmtFn] is a function value, [None] is
    nil, for which the method takes the member's own [Error]. *)
Fixpoint CustomError_loop (fmtFn : error -> result string) (i : nat) (l : list error)
    : result string :=
  match l with
  | [] => OK ""
  | err :: rest =>
      s ← fmtFn err;
      r ← CustomError_loop fmtFn (S i) rest;
      OK ((if (0 <? i)%nat then String (ascii_of_N 10) EmptyString else "") +:+ s +:+ r)
  end.

Definition MgmtErrorList_CustomError (natsort_Sort : list string -> list string)
    (fmtFn : option (error -> result string)) (e : MgmtErrorList) : result string :=
  let fmtFn := match fmtFn with
               | None => fun e => error_Error natsort_Sort e
               | Some f => f
               end in
  CustomError_loop fmtFn 0 (errs e).

(** The record and the wrapper type of an error value of the package. *)
Definition error_record (e : error) : option MgmtError :=
  match e with
  | ETyped t => Some (rec t)
  | EMgmt m => Some m
  | _ => None
  end.

Definition error_kind (e : error) : option ErrKind :=
  match e with
  | ETyped t => Some (kind t)
  | _ => None
  end.

(** The wrapper type the reverse classifier gives the record of a
    wrapper: no catalog holds [createLeafrefMismatchError], and the
    missing-choice error is built with a tag under which the YANG
    catalog does not list its app-tag. *)
Definition reclassified (k : ErrKind) : ErrKind :=
  match k with
  | LeafrefMismatchError => InstanceRequiredError
  | MissingChoiceError => OperationFailedApplicationError
  | _ => k
  end.

(** The new line between the members of a rendered list. *)
Definition newline : string := String (ascii_of_N 10) EmptyString.

(** A tag with a given namespace and local name. *)
Definition tag_named (ns name : string) (t : MgmtErrorInfoTag) : Prop :=
  Space (XMLName t) = ns /\ Local (XMLName t) = name.

(** The member [MgmtErrorList.UnmarshalJSON] appends for a decoded
    record: what the reverse classifier returns for the record under the
    rpc-error name, a record that no catalog lists being replaced by
    [mkMgmtError]. *)
Definition decoded_member (r : MgmtError) : error :=
  match classify (setXMLName r) with
  | EMgmt m => generic_operation_failed (Message m) (Path m)
  | e => e
  end.

(** The document [MgmtErrorList.MarshalJSON] writes for members with
    the given encodings. *)
Definition error_list_json (members : list json) : json :=
  JObject [("error-list", JArray members)].

(** * Properties *)

(** ** The catalogs *)

Lemma ncErrTable_None (tag : ncerrtag) : ncErrTable !! tag = None <-> 19 <= tag.
Proof.
  unfold ncErrTable. rewrite <- not_elem_of_list_to_map. cbn [fmap list_fmap fst].
  rewrite !not_elem_of_cons.
  unfold in_use, invalid_value, too_big, missing_attribute, bad_attribute,
    unknown_attribute, missing_element, bad_element, unknown_element,
    unknown_namespace, access_denied, lock_denied, resource_denied,
    rollback_failed, data_exists, data_missing, operation_not_supported,
    operation_failed, malformed_message.
  split.
  - intros H. lia.
  - intros H. repeat split; try lia. apply not_elem_of_nil.
Qed.

Lemma errtypemap_None (typ : string) :
  errtypemap !! typ = None <->
  typ ∉ ["transport"; "rpc"; "protocol"; "application"].
Proof. unfold errtypemap. rewrite <- not_elem_of_list_to_map. reflexivity. Qed.

Lemma yangErrTable_None (tag : yerrtag) : yangErrTable !! tag = None <-> 3 <= tag.
Proof.
  unfold yangErrTable. rewrite <- not_elem_of_list_to_map. cbn [fmap list_fmap fst].
  rewrite !not_elem_of_cons.
  unfold yang_operation_failed, yang_data_missing, yang_bad_attribute.
  split.
  - intros H. lia.
  - intros H. repeat split; try lia. apply not_elem_of_nil.
Qed.

Lemma vyErrTable_None (tag : vyErrTag) : vyErrTable !! tag = None <-> 1 <= tag.
Proof.
  unfold vyErrTable. rewrite <- not_elem_of_list_to_map. cbn [fmap list_fmap fst].
  rewrite !not_elem_of_cons. unfold vyatta_operation_failed.
  split.
  - intros H. lia.
  - intros H. repeat split; try lia. apply not_elem_of_nil.
Qed.

(** ** Construction failures *)

(** C3 (as stated, refuted): the specification requires that a
    construction whose (Tag, AppTag) pair is absent from the sub-table of
    the owning catalog fails.  [setYangError] stores an app-tag that no
    catalog knows, and [NewMissingChoiceError] builds a record with tag
    operation-failed and app-tag missing-choice; the YANG catalog lists
    missing-choice under data-missing only, the pair is absent from it,
    and the construction succeeds. *)
Lemma app_tag_not_validated :
  (exists r,
     setYangError newMgmtError yang_operation_failed "no-such-app-tag" "/p" "" None = OK r
     /\ AppTag r = "no-such-app-tag"
     /\ yerrapptagmap !! AppTag r = None
     /\ vyErrAppTagMap !! AppTag r = None)
  /\ (exists t,
     NewMissingChoiceError "/foo/bar" "baz" = OK t
     /\ Tag (rec t) = "operation-failed"
     /\ AppTag (rec t) = "missing-choice"
     /\ errtagmap !! Tag (rec t) = Some yang_operation_failed
     /\ yerrapptagmap !! AppTag (rec t) = Some missing_choice
     /\ (y_apptag <$> yangErrTable !! yang_operation_failed) ≫= (.!! missing_choice) = None
     /\ getYangError (rec t) = None).
Proof. split; eexists; vm_compute; repeat split; reflexivity. Qed.

(** C3 (amended): [setNcError] fails in three distinguishable ways, an
    unknown tag giving [invalid_error_tag], an unknown type
    [invalid_error_type], a type that is not a legal pairing for the tag
    [invalid_error_tag_type], and succeeds otherwise; the app-tag is
    never looked up: whether [setNcError], [setYangError] and
    [setVyattaError] succeed does not depend on it, and a successful call
    stores it as given. *)
Theorem construction_failure_conditions
    (e : MgmtError) (typ apptag path yangPath : string) (info : option MgmtErrorInfo) :
  (forall tag : ncerrtag,
     (setNcError e tag typ apptag path info = Err invalid_error_tag
        <-> 19 <= tag)
     /\ (setNcError e tag typ apptag path info = Err invalid_error_type
        <-> tag < 19 /\ typ ∉ ["transport"; "rpc"; "protocol"; "application"])
     /\ (setNcError e tag typ apptag path info = Err invalid_error_tag_type
        <-> exists entry ty, ncErrTable !! tag = Some entry
              /\ errtypemap !! typ = Some ty /\ nc_typ entry !! ty = None)
     /\ (succeeds (setNcError e tag typ apptag path info)
        <-> exists entry ty fn, ncErrTable !! tag = Some entry
              /\ errtypemap !! typ = Some ty /\ nc_typ entry !! ty = Some fn)
     /\ (forall r, setNcError e tag typ apptag path info = OK r ->
           AppTag r = apptag /\ Typ r = typ /\ Tag r = ncerrtag_String tag))
  /\ (invalid_error_tag <> invalid_error_type
      /\ invalid_error_tag <> invalid_error_tag_type
      /\ invalid_error_type <> invalid_error_tag_type)
  /\ (forall tag : yerrtag,
       (setYangError e tag apptag path yangPath info = Err invalid_error_tag
          <-> 3 <= tag)
       /\ (tag < 3 -> exists r, setYangError e tag apptag path yangPath info = OK r
             /\ AppTag r = apptag /\ Typ r = "application"))
  /\ (forall tag : vyErrTag,
       (setVyattaError e tag apptag path info = Err invalid_error_tag
          <-> 1 <= tag)
       /\ (tag < 1 -> exists r, setVyattaError e tag apptag path info = OK r
             /\ AppTag r = apptag /\ Typ r = "application")).
Proof.
  split; [|split; [|split]].
  - intros tag. unfold setNcError, succeeds.
    pose proof (ncErrTable_None tag) as Htag.
    pose proof (errtypemap_None typ) as Htyp.
    destruct (ncErrTable !! tag) as [entry|] eqn:E1.
    + assert (tag < 19) as Hlt.
      { destruct (N.lt_ge_cases tag 19) as [?|Hge]; [done|].
        apply Htag in Hge. discriminate. }
      destruct (errtypemap !! typ) as [ty|] eqn:E2.
      * assert (~ (typ ∉ ["transport"; "rpc"; "protocol"; "application"])) as Hin.
        { intros Hn. apply Htyp in Hn. discriminate. }
        destruct (nc_typ entry !! ty) as [fn|] eqn:E3.
        -- repeat split; try (intros; try discriminate; try lia; naive_solver).
        -- repeat split; try (intros; try discriminate; try lia; naive_solver).
      * assert (typ ∉ ["transport"; "rpc"; "protocol"; "application"]) as Hin
          by (by apply Htyp).
        repeat split; try (intros; try discriminate; try lia; naive_solver).
    + assert (19 <= tag) as Hge by (by apply Htag).
      repeat split; try (intros; try discriminate; try lia; naive_solver).
  - repeat split; discriminate.
  - intros tag. unfold setYangError.
    pose proof (yangErrTable_None tag) as Htag.
    destruct (yangErrTable !! tag) as [entry|] eqn:E1.
    + split.
      * split; [discriminate|]. intros H. apply Htag in H. discriminate.
      * intros _. eexists. split; [reflexivity|]. split; reflexivity.
    + split.
      * split; [intros _; by apply Htag | reflexivity].
      * intros Hlt. assert (3 <= tag) by (by apply Htag). lia.
  - intros tag. unfold setVyattaError.
    pose proof (vyErrTable_None tag) as Htag.
    destruct (vyErrTable !! tag) as [entry|] eqn:E1.
    + split.
      * split; [discriminate|]. intros H. apply Htag in H. discriminate.
      * intros _. eexists. split; [reflexivity|]. split; reflexivity.
    + split.
      * split; [intros _; by apply Htag | reflexivity].
      * intros Hlt. assert (1 <= tag) by (by apply Htag). lia.
Qed.

(** ** The leafref constructor *)

(** C5: the record built by [NewLeafrefMismatchError path lrefPath] is
    the same for every [lrefPath], and it is the record built by
    [NewInstanceRequiredError path]: tag data-missing, app-tag
    instance-required, the given path, no info. *)
Theorem leafref_path_discarded (path lrefPath : string) :
  exists r,
    NewLeafrefMismatchError path lrefPath = OK (createLeafrefMismatchError r)
    /\ NewInstanceRequiredError path = OK (createInstanceRequiredError r)
    /\ (forall lrefPath',
          NewLeafrefMismatchError path lrefPath' = NewLeafrefMismatchError path lrefPath)
    /\ r = {| Name := {| Space := netconf_namespace; Local := "rpc-error" |};
              Typ := "application";
              Tag := "data-missing";
              Severity := "error";
              AppTag := "instance-required";
              Path := path;
              Message := msg_yang_data_missing;
              Info := [] |}.
Proof.
  eexists. split; [vm_compute; reflexivity|].
  split; [vm_compute; reflexivity|].
  split; [intros; vm_compute; reflexivity|].
  vm_compute. reflexivity.
Qed.

(** ** The reverse classifier *)

(** C2: a record with tag operation-failed, type application and app-tag
    exec-failed matches the base-protocol catalog, which would give the
    operation-failed/application wrapper, but the classifier consults the
    vendor catalog first and returns the ExecError wrapper; that wrapper
    is what [MgmtErrorList.UnmarshalJSON] appends to the list. *)
Theorem classify_vendor_first (err : MgmtError) (l : MgmtErrorList) :
  Tag err = "operation-failed" ->
  Typ err = "application" ->
  AppTag err = "exec-failed" ->
  getNetconfError err = Some (createOperationFailedApplicationError err)
  /\ getVyattaError err = Some (createExecError err)
  /\ classify err = ETyped (createExecError err)
  /\ UnmarshalJSON_loop l [Some err]
     = OK {| errs := errs l ++ [ETyped (createExecError (setXMLName err))] |}.
Proof.
  destruct err as [n ty tg sv at_ pa ms inf]. simpl. intros -> -> ->.
  assert (getVyattaError (mkMgmtErrorRec n "application" "operation-failed" sv
                            "exec-failed" pa ms inf)
          = Some (createExecError (mkMgmtErrorRec n "application" "operation-failed" sv
                            "exec-failed" pa ms inf))) as Hvy
    by (vm_compute; reflexivity).
  split; [vm_compute; reflexivity|].
  split; [exact Hvy|].
  split; [unfold classify; rewrite Hvy; reflexivity|].
  destruct l as [es]. vm_compute. reflexivity.
Qed.

Lemma classify_vendor_first_witness :
  let err := {| Name := {| Space := ""; Local := "" |};
                Typ := "application"; Tag := "operation-failed"; Severity := "error";
                AppTag := "exec-failed"; Path := "/usr/bin/app";
                Message := "core dumped"; Info := [] |} in
  getNetconfError err = Some (createOperationFailedApplicationError err)
  /\ getVyattaError err = Some (createExecError err)
  /\ classify err = ETyped (createExecError err)
  /\ UnmarshalJSON_loop {| errs := [] |} [Some err]
     = OK {| errs := [] ++ [ETyped (createExecError (setXMLName err))] |}.
Proof.
  intros err. apply (classify_vendor_first err {| errs := [] |}); reflexivity.
Defined.

(** ** Strings

    The buffer loop writes what [strings.Join] returns. *)

Lemma append_cons (c : ascii) (s t : string) : String c s +:+ t = String c (s +:+ t).
Proof. reflexivity. Qed.

Lemma append_nil_l (s : string) : "" +:+ s = s.
Proof. reflexivity. Qed.

Lemma append_nil_r (s : string) : s +:+ "" = s.
Proof. induction s as [|c s IH]; [reflexivity|]. rewrite append_cons, IH. reflexivity. Qed.

Lemma append_assoc (s t u : string) : (s +:+ t) +:+ u = s +:+ (t +:+ u).
Proof.
  induction s as [|c s IH]; [reflexivity|]. rewrite !append_cons, IH. reflexivity.
Qed.

Lemma write_joined_S (sep : string) (i : nat) (l : list string) :
  write_joined sep (S i) l = concat_all (map (fun m => sep +:+ m) l).
Proof.
  revert i. induction l as [|m rest IH]; intros i; [reflexivity|].
  cbn [write_joined map concat_all]. rewrite IH, append_assoc. reflexivity.
Qed.

Lemma Join_cons (sep m : string) (rest : list string) :
  strings.Join (m :: rest) sep = m +:+ concat_all (map (fun x => sep +:+ x) rest).
Proof.
  revert m. induction rest as [|x rest IH]; intros m.
  - cbn. rewrite append_nil_r. reflexivity.
  - change (strings.Join (m :: x :: rest) sep)
      with (m +:+ sep +:+ strings.Join (x :: rest) sep).
    rewrite IH. cbn [map concat_all]. rewrite !append_assoc. reflexivity.
Qed.

Lemma write_joined_Join (sep : string) (l : list string) :
  write_joined sep 0 l = strings.Join l sep.
Proof.
  destruct l as [|m rest]; [reflexivity|].
  change (write_joined sep 0 (m :: rest)) with ("" +:+ m +:+ write_joined sep 1 rest).
  rewrite write_joined_S, Join_cons. reflexivity.
Qed.

(** ** The error list *)

(** C6: [mkMgmtError] returns a value that implements a marshaler
    unchanged; a value that does not but is [Formattable] (a plain
    [*MgmtError], or a foreign value) becomes the generic
    operation-failed/application wrapper with the Message and Path of
    [GetMessage()] and [GetPath()]; any other error becomes the same
    wrapper with its string form as Message and an empty Path. *)
Theorem mkMgmtError_normalizes :
  (forall e, is_Marshaler e = true -> mkMgmtError e = OK e)
  /\ (forall m, is_Marshaler (EMgmt m) = false
        /\ mkMgmtError (EMgmt m) = OK (generic_operation_failed (Message m) (Path m)))
  /\ (forall f me, is_Marshaler (EForeign f) = false -> fe_Formattable f = Some me ->
        mkMgmtError (EForeign f)
        = OK (generic_operation_failed (GetMessage me) (GetPath me)))
  /\ (forall f, is_Marshaler (EForeign f) = false -> fe_Formattable f = None ->
        mkMgmtError (EForeign f) = OK (generic_operation_failed (fe_Error f) "")).
Proof.
  split; [|split; [|split]].
  - intros [t|m|f| |] H; cbn [is_Marshaler] in H;
      [reflexivity|discriminate| |discriminate|discriminate].
    unfold mkMgmtError. rewrite H. reflexivity.
  - intros m. split; [reflexivity|]. vm_compute. reflexivity.
  - intros f me Hm Hf. cbn [is_Marshaler] in Hm. unfold mkMgmtError.
    rewrite Hm, Hf. vm_compute. reflexivity.
  - intros f Hm Hf. cbn [is_Marshaler] in Hm. unfold mkMgmtError.
    rewrite Hm, Hf. vm_compute. reflexivity.
Qed.

Lemma mkMgmtError_typed (e n : error) :
  mkMgmtError e = OK n -> is_Marshaler e = false -> is_typed n = true.
Proof.
  destruct e as [t|m|f| |]; intros H Hn; [discriminate| | | |].
  - vm_compute in H. inversion H. reflexivity.
  - cbn [is_Marshaler] in Hn. unfold mkMgmtError in H. rewrite Hn in H.
    destruct (fe_Formattable f); vm_compute in H; inversion H; reflexivity.
  - vm_compute in H. discriminate H.
  - vm_compute in H. discriminate H.
Qed.

Lemma MarshalJSON_loop_closed (l : list error) (bs : list string) (out : string) (i : nat) :
  Forall2 (fun e b => json_Marshal e = OK b) l bs ->
  MarshalJSON_loop out i l = OK (out +:+ write_joined "," i bs).
Proof.
  intros H. revert out i. induction H as [|e b l bs He _ IH]; intros out i.
  - cbn. rewrite append_nil_r. reflexivity.
  - cbn [MarshalJSON_loop write_joined]. rewrite He. cbn [mbind result_bind].
    rewrite IH, !append_assoc. reflexivity.
Qed.

Lemma MarshalXML_loop_closed (l : list error) (xs : list (list xml_node)) :
  Forall2 (fun e x => xml_Encode e = OK x) l xs ->
  MarshalXML_loop l = OK (concat xs).
Proof.
  induction 1 as [|e x l xs He _ IH]; [reflexivity|].
  cbn [MarshalXML_loop concat]. rewrite He, IH. reflexivity.
Qed.

Lemma MgmtErrorListAppend_typed (ts : list TypedError) (l : list error) :
  MgmtErrorListAppend {| errs := l |} (map ETyped ts)
  = OK {| errs := l ++ map ETyped ts |}.
Proof.
  revert l. induction ts as [|t ts IH]; intros l.
  - cbn [map MgmtErrorListAppend]. rewrite app_nil_r. reflexivity.
  - cbn [map MgmtErrorListAppend mkMgmtError mbind result_bind errs].
    rewrite IH, <- app_assoc. reflexivity.
Qed.

(** C7: errors are appended at the end of a list; the JSON encoding of
    a list is one object with the single key error-list holding the
    array of the members' encodings in insertion order; the XML encoding
    is the members' elements one after the other in insertion order with
    no element around them, and the element of a member of this package
    is an rpc-error element. *)
Theorem MgmtErrorList_wire_shape :
  (forall ts l,
     MgmtErrorListAppend {| errs := l |} (map ETyped ts)
     = OK {| errs := l ++ map ETyped ts |})
  /\ (forall l bs, Forall2 (fun e b => json_Marshal e = OK b) l bs ->
     MgmtErrorList_MarshalJSON {| errs := l |}
     = OK ("{" +:+ json_quote "error-list" +:+ ":[" +:+ strings.Join bs "," +:+ "]}"))
  /\ (forall ts,
     MgmtErrorList_MarshalJSON {| errs := map ETyped ts |}
     = OK (render (JObject [("error-list", JArray (map TypedError_json ts))])))
  /\ (forall l xs, Forall2 (fun e x => xml_Encode e = OK x) l xs ->
     MgmtErrorList_MarshalXML {| errs := l |} = OK (concat xs))
  /\ (forall ts,
     MgmtErrorList_MarshalXML {| errs := map ETyped ts |}
     = OK (map TypedError_MarshalXML ts))
  /\ (forall t, Name (rec t) = {| Space := netconf_namespace; Local := "rpc-error" |} ->
     exists children,
       TypedError_MarshalXML t = XElem "rpc-error" (Some netconf_namespace) children).
Proof.
  assert (forall l bs, Forall2 (fun e b => json_Marshal e = OK b) l bs ->
     MgmtErrorList_MarshalJSON {| errs := l |}
     = OK ("{" +:+ json_quote "error-list" +:+ ":[" +:+ strings.Join bs "," +:+ "]}"))
    as Hjson.
  { intros l bs H. unfold MgmtErrorList_MarshalJSON. cbn [errs].
    rewrite (MarshalJSON_loop_closed l bs _ 0 H). cbn [mbind result_bind].
    rewrite write_joined_Join. reflexivity. }
  assert (forall l xs, Forall2 (fun e x => xml_Encode e = OK x) l xs ->
     MgmtErrorList_MarshalXML {| errs := l |} = OK (concat xs)) as Hxml.
  { intros l xs H. apply MarshalXML_loop_closed, H. }
  split; [exact MgmtErrorListAppend_typed|].
  split; [exact Hjson|]. split; [|split; [exact Hxml|split]].
  - intros ts.
    rewrite (Hjson (map ETyped ts) (map (fun t => render (TypedError_json t)) ts)).
    + f_equal. cbn [render map fst snd strings.Join]. rewrite map_map.
      rewrite !append_assoc. reflexivity.
    + induction ts; constructor; [reflexivity|assumption].
  - intros ts.
    rewrite (Hxml (map ETyped ts) (map (fun t => [TypedError_MarshalXML t]) ts)).
    + f_equal. induction ts as [|t ts IH]; [reflexivity|].
      cbn [map concat]. rewrite IH. reflexivity.
    + induction ts; constructor; [reflexivity|assumption].
  - intros [k r] H. unfold TypedError_MarshalXML, MgmtError_xml, xml_start.
    cbn [rec] in *. rewrite H. cbn [Local Space].
    change (String.eqb "rpc-error" "") with false.
    change (String.eqb netconf_namespace "") with false. cbn iota.
    replace (xml_coerce netconf_namespace) with netconf_namespace
      by (vm_compute; reflexivity).
    eexists. reflexivity.
Qed.

(** ** The default rendering *)



Lemma severities_one_word : one_word "error" = true /\ one_word "warning" = true.
Proof. split; reflexivity. Qed.

Lemma if_empty_id (s : string) : (if String.eqb s "" then "" else s) = s.
Proof. destruct s; reflexivity. Qed.



(** ** Info[0] *)

(** C9: [Error()] of the unknown-element and missing-element wrappers and
    [GetMessage()] of the unknown-element wrappers index Info[0]: they
    panic exactly when Info is empty.  The four constructors build a
    record whose Info holds the bad-element entry; a record decoded from
    JSON is not checked, so a document without error-info reaches the
    unknown-element wrapper with an empty Info. *)
Theorem Info0_precondition :
  (forall e, unknownElemErrorString e = Panic <-> Info e = [])
  /\ (forall e, missingElemErrorString e = Panic <-> Info e = [])
  /\ (forall Makepath e, UnknownElementError_GetMessage Makepath e = Panic <-> Info e = [])
  /\ (forall natsort_Sort t,
        UnknownElement_kind (kind t) || MissingElement_kind (kind t) = true ->
        (TypedError_Error natsort_Sort t = Panic <-> Info (rec t) = []))
  /\ (forall badElem,
        (exists t, NewUnknownElementProtocolError badElem = OK t
           /\ kind t = UnknownElementProtocolError
           /\ Info (rec t) = [bad_element_tag badElem])
        /\ (exists t, NewUnknownElementApplicationError badElem = OK t
           /\ kind t = UnknownElementApplicationError
           /\ Info (rec t) = [bad_element_tag badElem])
        /\ (exists t, NewMissingElementProtocolError badElem = OK t
           /\ kind t = MissingElementProtocolError
           /\ Info (rec t) = [bad_element_tag badElem])
        /\ (exists t, NewMissingElementApplicationError badElem = OK t
           /\ kind t = MissingElementApplicationError
           /\ Info (rec t) = [bad_element_tag badElem]))
  /\ (exists doc t,
        MgmtErrorList_UnmarshalJSON doc = OK {| errs := [ETyped t] |}
        /\ kind t = UnknownElementProtocolError
        /\ Info (rec t) = []
        /\ (forall natsort_Sort, TypedError_Error natsort_Sort t = Panic)
        /\ (forall Makepath, UnknownElementError_GetMessage Makepath (rec t) = Panic)).
Proof.
  assert (forall e, unknownElemErrorString e = Panic <-> Info e = []) as Hu.
  { intros e. unfold unknownElemErrorString. destruct (Info e); split; try done. }
  assert (forall e, missingElemErrorString e = Panic <-> Info e = []) as Hm.
  { intros e. unfold missingElemErrorString. destruct (Info e); split; try done. }
  split; [exact Hu|]. split; [exact Hm|]. split; [|split; [|split]].
  - intros Makepath e. unfold UnknownElementError_GetMessage.
    destruct (Info e); split; try done.
  - intros srt [k r] Hk. cbn [kind rec] in *.
    destruct k; try discriminate Hk; unfold TypedError_Error; cbn [kind rec];
      first [apply Hu | apply Hm].
  - intros badElem. repeat split; eexists; (split; [vm_compute; reflexivity|]);
      split; reflexivity.
  - exists (JObject [("error-list",
              JArray [JObject [("error-type", JString "protocol");
                               ("error-tag", JString "unknown-element");
                               ("error-severity", JString "error")]])]).
    eexists. split; [vm_compute; reflexivity|].
    repeat split.
Qed.

(** ** The ambiguous-path error *)

(** The record [NewPathAmbiguousError] builds: the names and help texts
    in the order in which the map was visited. *)
Lemma NewPathAmbiguousError_record
    (Pathstr : list string -> string) (path : list string) (visit : list (string * string)) :
  NewPathAmbiguousError Pathstr path visit
  = OK (createPathAmbigError
          {| Name := {| Space := netconf_namespace; Local := "rpc-error" |};
             Typ := "application";
             Tag := "operation-failed";
             Severity := "error";
             AppTag := "path-ambiguous";
             Path := Pathstr path;
             Message := msg_yang_operation_failed;
             Info := map (fun kv => NewMgmtErrorInfoTag VyattaNamespace (fst kv) (snd kv))
                       visit |}).
Proof. vm_compute. reflexivity. Qed.

Section NaturalSort.

Variable pathutil_Pathstr : list string -> string.

(** [natsort.Sort] sorts with [natsort.Less]: the result is a
    rearrangement of the argument in which no element is less than the
    one before it.  [Less] is taken to be a strict total order. *)
Variable natsort_Less : string -> string -> bool.
Variable natsort_Sort : list string -> list string.

Hypothesis Less_total :
  forall a b, a <> b -> natsort_Less a b = true \/ natsort_Less b a = true.
Hypothesis Less_trans :
  forall a b c, natsort_Less a b = true -> natsort_Less b c = true ->
                natsort_Less a c = true.
Hypothesis Sort_Permutation : forall l, natsort_Sort l ≡ₚ l.
Hypothesis Sort_Sorted :
  forall l, Sorted (fun a b => natsort_Less b a = false) (natsort_Sort l).

Let not_after (a b : string) : Prop := natsort_Less b a = false.

Local Instance not_after_trans : Transitive not_after.
Proof.
  intros a b c Hab Hbc. unfold not_after in *.
  destruct (natsort_Less c a) eqn:Hca; [|reflexivity].
  destruct (decide (a = b)) as [->|Hne]; [congruence|].
  destruct (Less_total a b Hne) as [H|H]; [|congruence].
  rewrite (Less_trans c a b Hca H) in Hbc. discriminate.
Qed.

Local Instance not_after_antisym : AntiSymm (=) not_after.
Proof.
  intros a b Hab Hba. unfold not_after in *.
  destruct (decide (a = b)) as [|Hne]; [assumption|].
  destruct (Less_total a b Hne); congruence.
Qed.



End NaturalSort.





(** ** Valid UTF-8 *)

Lemma RuneError_append (x : string) :
  RuneError +:+ x
  = String (ascii_of_N 239) (String (ascii_of_N 191) (String (ascii_of_N 189) x)).
Proof. reflexivity. Qed.

Lemma utf8_coerce_cons (c0 : ascii) (s0 : string) :
  utf8_coerce (String c0 s0)
  = match utf8_width c0, s0 with
    | 1%nat, _ => String c0 (utf8_coerce s0)
    | 2%nat, String c1 s1 =>
        if utf8_second c0 c1 then String c0 (String c1 (utf8_coerce s1))
        else RuneError +:+ utf8_coerce s0
    | 3%nat, String c1 (String c2 s2) =>
        if utf8_second c0 c1 && utf8_cont c2
        then String c0 (String c1 (String c2 (utf8_coerce s2)))
        else RuneError +:+ utf8_coerce s0
    | 4%nat, String c1 (String c2 (String c3 s3)) =>
        if utf8_second c0 c1 && utf8_cont c2 && utf8_cont c3
        then String c0 (String c1 (String c2 (String c3 (utf8_coerce s3))))
        else RuneError +:+ utf8_coerce s0
    | _, _ => RuneError +:+ utf8_coerce s0
    end.
Proof. reflexivity. Qed.

Ltac utf8_bad Ha Hw :=
  rewrite RuneError_append in Ha;
  first [ discriminate Ha
        | inversion Ha; subst; vm_compute in Hw; discriminate Hw ].

Lemma utf8_coerce_app_len (n : nat) (a b : string) :
  (String.length a <= n)%nat ->
  utf8_coerce a = a -> utf8_coerce (a +:+ b) = a +:+ utf8_coerce b.
Proof.
  revert a. induction n as [|n IH]; intros a Hn Ha.
  - destruct a; [reflexivity|cbn in Hn; lia].
  - destruct a as [|c0 s0]; [reflexivity|].
    rewrite utf8_coerce_cons in Ha.
    destruct (utf8_width c0) as [|[|[|[|[|w]]]]] eqn:Hw.
    + utf8_bad Ha Hw.
    + injection Ha as Ha.
      rewrite !append_cons, utf8_coerce_cons, Hw. f_equal.
      apply IH; [cbn [String.length] in Hn; lia|exact Ha].
    + destruct s0 as [|c1 s1]; [utf8_bad Ha Hw|].
      destruct (utf8_second c0 c1) eqn:H2; [|utf8_bad Ha Hw].
      injection Ha as Ha.
      rewrite !append_cons, utf8_coerce_cons, Hw, H2. do 2 f_equal.
      apply IH; [cbn [String.length] in Hn; lia|exact Ha].
    + destruct s0 as [|c1 [|c2 s2]]; [utf8_bad Ha Hw|utf8_bad Ha Hw|].
      destruct (utf8_second c0 c1 && utf8_cont c2) eqn:H3.
      * injection Ha as Ha.
        rewrite !append_cons, utf8_coerce_cons, Hw, H3. do 3 f_equal.
        apply IH; [cbn [String.length] in Hn; lia|exact Ha].
      * rewrite RuneError_append in Ha. inversion Ha; subst.
        vm_compute in H3. discriminate H3.
    + destruct s0 as [|c1 [|c2 [|c3 s3]]];
        [utf8_bad Ha Hw|utf8_bad Ha Hw|utf8_bad Ha Hw|].
      destruct (utf8_second c0 c1 && utf8_cont c2 && utf8_cont c3) eqn:H4;
        [|utf8_bad Ha Hw].
      injection Ha as Ha.
      rewrite !append_cons, utf8_coerce_cons, Hw, H4. do 4 f_equal.
      apply IH; [cbn [String.length] in Hn; lia|exact Ha].
    + utf8_bad Ha Hw.
Qed.

Lemma utf8_coerce_app (a b : string) :
  utf8_coerce a = a -> utf8_coerce b = b -> utf8_coerce (a +:+ b) = a +:+ b.
Proof.
  intros Ha Hb. rewrite (utf8_coerce_app_len (String.length a) a b (le_n _) Ha), Hb.
  reflexivity.
Qed.

Lemma utf8_ok_eq (s : string) : utf8_ok s = true -> utf8_coerce s = s.
Proof. unfold utf8_ok. apply String.eqb_eq. Qed.


(** ** The info-tag codec *)

Lemma Split_no_colon (s : string) : no_colon s = true -> strings.Split s ":"%char = [s].
Proof.
  induction s as [|c s IH]; [reflexivity|]. cbn [no_colon strings.Split].
  intros H. apply andb_prop in H as [Hc Hs]. apply negb_true_iff in Hc.
  rewrite Hc, (IH Hs). reflexivity.
Qed.

Lemma Split_one_colon (a b : string) :
  no_colon a = true -> no_colon b = true ->
  strings.Split (a +:+ ":" +:+ b) ":"%char = [a; b].
Proof.
  intros Ha Hb. induction a as [|c a IH].
  - change ("" +:+ ":" +:+ b) with (String ":"%char b).
    cbn [strings.Split]. rewrite (Split_no_colon b Hb). reflexivity.
  - cbn [no_colon] in Ha. apply andb_prop in Ha as [Hc Ha]. apply negb_true_iff in Hc.
    rewrite append_cons. cbn [strings.Split]. rewrite Hc, (IH Ha). reflexivity.
Qed.

Lemma Split_nonempty (s : string) (sep : ascii) : strings.Split s sep <> [].
Proof.
  destruct s as [|c s]; [discriminate|]. cbn [strings.Split].
  destruct (Ascii.eqb c sep); [discriminate|]. destruct (strings.Split s sep); discriminate.
Qed.

Lemma nsmap_Some (ns m : string) :
  nsmap !! ns = Some m ->
  (ns = netconf_namespace /\ m = netconf_module)
  \/ (ns = yang_namespace /\ m = yang_module)
  \/ (ns = VyattaNamespace /\ m = vyattaModule).
Proof.
  unfold nsmap. intros H. apply elem_of_list_to_map_2 in H.
  rewrite !elem_of_cons, elem_of_nil in H.
  destruct H as [H|[H|[H|[]]]]; inversion H; auto.
Qed.

Lemma UnmarshalJSON_member (recv : MgmtErrorInfoTag) (k v : string) :
  MgmtErrorInfoTag_UnmarshalJSON recv (JObject [(k, JString v)])
  = match strings.Split k ":"%char with
    | [s0; s1] =>
        OK {| XMLName := {| Space := lookupNamespace s0; Local := s1 |}; Value := v |}
    | s0 :: _ =>
        OK {| XMLName := {| Space := Space (XMLName recv); Local := s0 |}; Value := v |}
    | [] => Panic
    end.
Proof.
  unfold MgmtErrorInfoTag_UnmarshalJSON, json_Unmarshal_map.
  cbn [json_members_to_map json_Unmarshal_string mbind result_bind].
  rewrite insert_empty, map_to_list_singleton. reflexivity.
Qed.

Lemma tag_key_roundtrip (recv i : MgmtErrorInfoTag) :
  Space (XMLName recv) = "" ->
  tag_json_ok i = true ->
  MgmtErrorInfoTag_UnmarshalJSON recv (JObject [(MarshalJSON_tag i, JString (Value i))])
  = OK i.
Proof.
  destruct i as [[ns loc] v]. unfold tag_json_ok, MarshalJSON_tag.
  cbn [XMLName Space Local Value]. intros Hrecv H.
  apply andb_prop in H as [Hloc Hns]. rewrite UnmarshalJSON_member.
  destruct ns as [|c ns].
  - change (0 <? N.of_nat (String.length "")) with false. cbn iota.
    rewrite (Split_no_colon loc Hloc), Hrecv. reflexivity.
  - change (0 <? N.of_nat (String.length (String c ns))) with true. cbn iota.
    change (String.eqb (String c ns) "") with false in Hns. cbn [orb] in Hns.
    apply orb_prop in Hns as [Hk|Hu].
    + unfold known_namespace in Hk. apply bool_decide_eq_true in Hk as [m Hm].
      unfold lookupModule. rewrite Hm.
      destruct (nsmap_Some _ _ Hm) as [[-> ->]|[[-> ->]|[-> ->]]];
        (rewrite Split_one_colon; [reflexivity|reflexivity|exact Hloc]).
    + apply andb_prop in Hu as [Hc Hm]. apply negb_true_iff in Hm.
      unfold known_module in Hm. apply bool_decide_eq_false in Hm.
      assert (modmap !! String c ns = None) as Hmod.
      { destruct (modmap !! String c ns) eqn:E; [|reflexivity].
        exfalso. apply Hm. eauto. }
      unfold lookupModule.
      destruct (nsmap !! String c ns) as [m|] eqn:Hn.
      * destruct (nsmap_Some _ _ Hn) as [[Heq ->]|[[Heq ->]|[Heq ->]]];
          rewrite Heq in Hc; vm_compute in Hc; discriminate.
      * rewrite (Split_one_colon _ _ Hc Hloc). unfold lookupNamespace.
        rewrite Hmod. reflexivity.
Qed.

Lemma lookupModule_utf8 (ns : string) :
  utf8_coerce ns = ns -> utf8_coerce (lookupModule ns) = lookupModule ns.
Proof.
  intros H. unfold lookupModule. destruct (nsmap !! ns) as [m|] eqn:Hn; [|exact H].
  destruct (nsmap_Some _ _ Hn) as [[_ ->]|[[_ ->]|[_ ->]]]; vm_compute; reflexivity.
Qed.

Lemma MarshalJSON_tag_utf8 (i : MgmtErrorInfoTag) :
  tag_utf8_ok i = true -> utf8_coerce (MarshalJSON_tag i) = MarshalJSON_tag i.
Proof.
  unfold tag_utf8_ok, MarshalJSON_tag. intros H.
  apply andb_prop in H as [H _]. apply andb_prop in H as [Hs Hl].
  apply utf8_ok_eq in Hs. apply utf8_ok_eq in Hl.
  destruct (0 <? N.of_nat (String.length (Space (XMLName i)))); [|exact Hl].
  apply utf8_coerce_app; [by apply lookupModule_utf8|].
  apply utf8_coerce_app; [reflexivity|exact Hl].
Qed.

Lemma tag_json_roundtrip (recv i : MgmtErrorInfoTag) :
  Space (XMLName recv) = "" ->
  tag_json_ok i = true ->
  tag_utf8_ok i = true ->
  MgmtErrorInfoTag_UnmarshalJSON recv (MgmtErrorInfoTag_json i) = OK i.
Proof.
  intros Hrecv Hi Hu. unfold MgmtErrorInfoTag_json.
  rewrite (MarshalJSON_tag_utf8 i Hu).
  apply andb_prop in Hu as [_ Hv]. rewrite (utf8_ok_eq _ Hv).
  by apply tag_key_roundtrip.
Qed.



(** ** Round trips of the record *)

Lemma json_Unmarshal_tags_roundtrip (info : MgmtErrorInfo) :
  Forall (fun i => tag_json_ok i = true) info ->
  forallb tag_utf8_ok info = true ->
  json_Unmarshal_tags [] (map MgmtErrorInfoTag_json info) = OK info.
Proof.
  induction 1 as [|i info Hi _ IH]; [reflexivity|].
  cbn [forallb]. intros Hu. apply andb_prop in Hu as [Hu Hus].
  cbn [map json_Unmarshal_tags hd tl].
  rewrite (tag_json_roundtrip zeroInfoTag i eq_refl Hi Hu). cbn [mbind result_bind].
  rewrite (IH Hus). reflexivity.
Qed.

Lemma json_set_fields_app (e : MgmtError) (l1 l2 : list (string * json)) :
  json_set_fields e (l1 ++ l2) = (e' ← json_set_fields e l1; json_set_fields e' l2).
Proof.
  revert e. induction l1 as [|[k v] l1 IH]; intros e; [reflexivity|].
  cbn [app json_set_fields]. destruct (json_set_field e k v) as [e'| |]; try reflexivity.
  cbn [mbind result_bind]. apply IH.
Qed.

Lemma json_set_omitempty (e : MgmtError) (key s : string)
    (get : MgmtError -> string) (set : MgmtError -> string -> MgmtError) :
  utf8_coerce s = s ->
  get e = "" ->
  (forall e' s', json_set_field e' key (JString s') = OK (set e' s')) ->
  (set e "" = e) ->
  json_set_fields e (json_omitempty key s) = OK (set e s).
Proof.
  intros Hs Hget Hset Hid. unfold json_omitempty, json_string. rewrite Hs.
  destruct s as [|c s]; cbn [String.eqb json_set_fields].
  - rewrite Hid. reflexivity.
  - rewrite Hset. reflexivity.
Qed.

Lemma record_utf8_ok_fields (e : MgmtError) :
  record_utf8_ok e = true ->
  utf8_coerce (Typ e) = Typ e /\ utf8_coerce (Tag e) = Tag e
  /\ utf8_coerce (Severity e) = Severity e /\ utf8_coerce (AppTag e) = AppTag e
  /\ utf8_coerce (Path e) = Path e /\ utf8_coerce (Message e) = Message e
  /\ forallb tag_utf8_ok (Info e) = true.
Proof.
  unfold record_utf8_ok. intros H.
  apply andb_prop in H as [H H7]. apply andb_prop in H as [H H6].
  apply andb_prop in H as [H H5]. apply andb_prop in H as [H H4].
  apply andb_prop in H as [H H3]. apply andb_prop in H as [H1 H2].
  repeat split; first [by apply utf8_ok_eq | assumption].
Qed.

(** Decoding the JSON encoding of a record into a record with empty
    fields gives the fields of the record, the name of the receiver
    being kept, when the strings of the record are valid UTF-8 and its
    tags are transmitted by the tag codec. *)
Lemma MgmtError_json_decode (n : xml_Name) (e : MgmtError) :
  record_utf8_ok e = true ->
  Forall (fun i => tag_json_ok i = true) (Info e) ->
  json_Unmarshal_MgmtError (set_Name zeroMgmtError n) (MgmtError_json e)
  = OK (set_Name e n).
Proof.
  intros Hu. apply record_utf8_ok_fields in Hu as (Hty & Htg & Hsv & Hat & Hpa & Hms & Hui).
  destruct e as [n0 ty tg sv at_ pa ms inf].
  cbn [Typ Tag Severity AppTag Path Message Info] in *. intros Hinf.
  unfold json_Unmarshal_MgmtError, MgmtError_json.
  cbn [Typ Tag Severity AppTag Path Message Info].
  unfold json_string. rewrite Hty, Htg, Hsv.
  rewrite json_set_fields_app.
  change (json_set_fields (set_Name zeroMgmtError n)
            [("error-type", JString ty); ("error-tag", JString tg);
             ("error-severity", JString sv)])
    with (OK (set_Severity (set_Tag (set_Typ (set_Name zeroMgmtError n) ty) tg) sv)).
  cbn [mbind result_bind]. rewrite json_set_fields_app.
  rewrite (json_set_omitempty _ "error-app-tag" at_ AppTag set_AppTag);
    [|exact Hat|reflexivity|reflexivity|reflexivity].
  cbn [mbind result_bind]. rewrite json_set_fields_app.
  rewrite (json_set_omitempty _ "error-path" pa Path set_Path);
    [|exact Hpa|reflexivity|reflexivity|reflexivity].
  cbn [mbind result_bind]. rewrite json_set_fields_app.
  rewrite (json_set_omitempty _ "error-message" ms Message set_Message);
    [|exact Hms|reflexivity|reflexivity|reflexivity].
  cbn [mbind result_bind].
  destruct inf as [|i inf]; [reflexivity|].
  cbn [json_set_fields].
  change (json_set_field ?e "error-info" (JArray ?l))
    with (set_Info e <$> json_Unmarshal_tags (Info e) l).
  cbn [Info set_Message set_Path set_AppTag set_Severity set_Tag set_Typ
       set_Name zeroMgmtError].
  rewrite (json_Unmarshal_tags_roundtrip (i :: inf) Hinf Hui). reflexivity.
Qed.








Lemma NewNonUniqueError_record (paths : list string) :
  NewNonUniqueError paths
  = OK (createNonUniqueError
          {| Name := rpc_error_name;
             Typ := "application";
             Tag := "operation-failed";
             Severity := "error";
             AppTag := "data-not-unique";
             Path := "";
             Message := msg_yang_operation_failed;
             Info := map (fun p => NewMgmtErrorInfoTag yang_namespace "non-unique" p)
                       paths |}).
Proof. vm_compute. reflexivity. Qed.






(** * The examples and tests of the package *)

(** ExampleExecError. *)
Example ExampleExecError :
  (t ← NewExecError Pathstr_slashes ["usr"; "bin"; "app"] "core dumped";
   TypedError_Error bytewise_Sort t)
  = OK "Error: /usr/bin/app: core dumped".
Proof. vm_compute. reflexivity. Qed.

(** ExamplePathAmbiguousError_command. *)
Example ExamplePathAmbiguousError_command :
  (t ← NewPathAmbiguousError Pathstr_slashes []
         [("show", "Show the configuration (default values may be suppressed)");
          ("set", "Set the value of a parameter or create a new element");
          ("save", "Save configuration to a file")];
   TypedError_Error bytewise_Sort t)
  = OK "Error: Ambiguous command, could be one of: save, set, show".
Proof. vm_compute. reflexivity. Qed.

(** The precedence scenario on a document: the member is classified by
    the vendor catalog. *)
Example UnmarshalJSON_exec_failed :
  MgmtErrorList_UnmarshalJSON
    (JObject [("error-list",
               JArray [JObject [("error-type", JString "application");
                                ("error-tag", JString "operation-failed");
                                ("error-severity", JString "error");
                                ("error-app-tag", JString "exec-failed");
                                ("error-message", JString "boom")]])])
  = OK {| errs := [ETyped {| kind := ExecError;
                             rec := {| Name := rpc_error_name;
                                       Typ := "application";
                                       Tag := "operation-failed";
                                       Severity := "error";
                                       AppTag := "exec-failed";
                                       Path := "";
                                       Message := "boom";
                                       Info := [] |} |}] |}.
Proof. vm_compute. reflexivity. Qed.

(** ExampleNonUniqueError. *)
Example ExampleNonUniqueError :
  (t ← NewNonUniqueError ["/testcontainer/testlist/name/dev1/attr/value";
                          "/testcontainer/testlist/name/dev2/attr/value";
                          "/testcontainer/testlist/name/dev3/attr/value"];
   TypedError_Error bytewise_Sort
     {| kind := kind t; rec := set_Path (rec t) "/testcontainer/testlist" |})
  = OK ("Error: /testcontainer/testlist: Non-unique paths "
        +:+ "name/dev1/attr/value, name/dev2/attr/value, name/dev3/attr/value").
Proof. vm_compute. reflexivity. Qed.

(** TestMissingAttrRpcError: the XML encoding. *)
Example TestMissingAttrRpcError_xml :
  TypedError_MarshalXML <$> NewMissingAttrRpcError "attrX" "elemY"
  = OK (XElem "rpc-error" (Some "urn:ietf:params:xml:ns:netconf:base:1.0")
          [XElem "error-type" None [XText "rpc"];
           XElem "error-tag" None [XText "missing-attribute"];
           XElem "error-severity" None [XText "error"];
           XElem "error-message" None [XText "An expected attribute is missing."];
           XElem "error-info" None
             [XElem "bad-attribute" None [XText "attrX"];
              XElem "bad-element" None [XText "elemY"]]]).
Proof. vm_compute. reflexivity. Qed.

(** TestMgmtErrorListJSON: a typed error of each catalog and a plain
    error are appended, the list is marshalled and unmarshalled, and the
    result is the list. *)
Example TestMgmtErrorListJSON :
  let plain := EForeign {| fe_Error := "This is not a MgmtError error";
                           fe_json_Marshaler := false; fe_xml_Marshaler := false;
                           fe_Formattable := None;
                           fe_json := Err decode_error; fe_xml := Err decode_error |} in
  exists e1 e2 e3 ts,
    NewOperationFailedApplicationError = OK e1
    /\ NewMustViolationError = OK e2
    /\ NewExecError Pathstr_slashes ["foo"; "bar"] "boom" = OK e3
    /\ MgmtErrorListAppend {| errs := [] |} [ETyped e1; ETyped e2; ETyped e3; plain]
       = OK {| errs := map ETyped ts |}
    /\ MgmtErrorList_MarshalJSON {| errs := map ETyped ts |}
       = OK (render (JObject [("error-list", JArray (map TypedError_json ts))]))
    /\ MgmtErrorList_UnmarshalJSON
         (JObject [("error-list", JArray (map TypedError_json ts))])
       = OK {| errs := map ETyped ts |}.
Proof.
  intros plain. do 3 eexists. eexists [_; _; _; _].
  repeat split; vm_compute; reflexivity.
Qed.

(** ExampleMgmtErrorList: the rendering of a list, one member a line. *)
Example ExampleMgmtErrorList :
  let gen (n : string) :=
    ETyped {| kind := OperationFailedApplicationError;
              rec := {| Name := rpc_error_name; Typ := "application";
                        Tag := "operation-failed"; Severity := "error"; AppTag := "";
                        Path := "/path/" +:+ n; Message := "Message " +:+ n;
                        Info := [] |} |} in
  let plain := EForeign {| fe_Error := "This is not a MgmtError error";
                           fe_json_Marshaler := false; fe_xml_Marshaler := false;
                           fe_Formattable := None;
                           fe_json := Err decode_error; fe_xml := Err decode_error |} in
  (l ← MgmtErrorListAppend {| errs := [] |} [gen "1"; gen "2"; plain];
   MgmtErrorList_Error bytewise_Sort l)
  = OK ("Error: /path/1: Message 1" +:+ String (ascii_of_N 10) EmptyString
        +:+ "Error: /path/2: Message 2" +:+ String (ascii_of_N 10) EmptyString
        +:+ "Error: This is not a MgmtError error").
Proof. vm_compute. reflexivity. Qed.

(** The JSON round trip of the tests, on the ambiguous-path error, and
    the XML encoding of the non-unique error read back. *)
Example TestPathAmbiguousError_json :
  exists t,
    NewPathAmbiguousError Pathstr_slashes ["s"]
      [("system", "System parameters"); ("service", "Services")] = OK t
    /\ TypedError_json t
       = JObject [("error-type", JString "application");
                  ("error-tag", JString "operation-failed");
                  ("error-severity", JString "error");
                  ("error-app-tag", JString "path-ambiguous");
                  ("error-path", JString "/s");
                  ("error-message", JString "The requested operation failed.");
                  ("error-info",
                   JArray [JObject [("vyatta-yang:system", JString "System parameters")];
                           JObject [("vyatta-yang:service", JString "Services")]])]
    /\ TypedError_UnmarshalJSON PathAmbiguousError (TypedError_json t) = OK t.
Proof. eexists. repeat split; vm_compute; reflexivity. Qed.

Example TestNonUniqueError_xml :
  exists t,
    NewNonUniqueError ["/c/l/a/b/c"; "/c/l/a/d/c"] = OK t
    /\ TypedError_MarshalXML t
       = XElem "rpc-error" (Some "urn:ietf:params:xml:ns:netconf:base:1.0")
           [XElem "error-type" None [XText "application"];
            XElem "error-tag" None [XText "operation-failed"];
            XElem "error-severity" None [XText "error"];
            XElem "error-app-tag" None [XText "data-not-unique"];
            XElem "error-message" None [XText "The requested operation failed."];
            XElem "error-info" None
              [XElem "non-unique" (Some "urn:ietf:params:xml:ns:yang:1")
                 [XText "/c/l/a/b/c"];
               XElem "non-unique" (Some "urn:ietf:params:xml:ns:yang:1")
                 [XText "/c/l/a/d/c"]]]
    /\ xml_Unmarshal_MgmtError zeroMgmtError (TypedError_MarshalXML t) = OK (rec t).
Proof. eexists. repeat split; vm_compute; reflexivity. Qed.

(** * Further properties of the package *)

(** ** Names of the enumerations *)

Lemma key_of_elem (l : list (string * N)) (s : string) (v : N) :
  NoDup l.*2 -> (s, v) ∈ l -> key_of l v = s.
Proof.
  induction l as [|[s' w] l IH]; intros Hnd Hin; [by apply elem_of_nil in Hin|].
  cbn [fmap list_fmap snd] in Hnd. apply NoDup_cons in Hnd as [Hw Hnd].
  cbn [key_of]. apply elem_of_cons in Hin as [Heq|Hin].
  - inversion Heq; subst. rewrite N.eqb_refl. reflexivity.
  - destruct (N.eqb_spec v w) as [->|Hne]; [|by apply IH].
    exfalso. apply Hw. apply list_elem_of_fmap. exists (s, w). split; [reflexivity|exact Hin].
Qed.

Lemma key_of_absent (l : list (string * N)) (v : N) : v ∉ l.*2 -> key_of l v = "".
Proof.
  induction l as [|[s' w] l IH]; intros Hn; [reflexivity|].
  cbn [fmap list_fmap snd] in Hn. apply not_elem_of_cons in Hn as [Hne Hn].
  cbn [key_of]. destruct (N.eqb_spec v w) as [->|_]; [congruence|by apply IH].
Qed.

Lemma map_key_of_lookup (m : gmap string N) (s : string) (v : N) :
  NoDup (map_to_list m).*2 -> m !! s = Some v -> map_key_of m v = s.
Proof.
  intros Hnd Hs. unfold map_key_of. apply key_of_elem; [exact Hnd|].
  by apply elem_of_map_to_list.
Qed.

Lemma map_key_of_absent (m : gmap string N) (v : N) :
  (forall s, m !! s <> Some v) -> map_key_of m v = "".
Proof.
  intros Hn. unfold map_key_of. apply key_of_absent.
  intros Hin. apply list_elem_of_fmap in Hin as [[s w] [-> Hin]].
  apply elem_of_map_to_list in Hin. by apply (Hn s).
Qed.

(** X1: [set] and [String] of the enumerations are inverse of each
    other.  A name that [set] accepts is the name [String] gives the
    value stored, and a name it rejects leaves the receiver as it was;
    [String] of a declared constant is a name that [set] maps back to
    the constant, and [String] of any other value is the empty string. *)
Theorem enumeration_names (t0 : N) (name : string) :
  (match errtype_set t0 name with
   | (t, None) => errtype_String t = name /\ t < 4
   | (t, Some e) => t = t0 /\ e = Invalid_error_target
   end)
  /\ (match ncerrtag_set t0 name with
      | (t, None) => ncerrtag_String t = name /\ t < 19
      | (t, Some e) => t = t0 /\ e = Invalid_error_tag
      end)
  /\ (match yerrtag_set t0 name with
      | (t, None) => yerrtag_String t = name /\ t < 3
      | (t, Some e) => t = t0 /\ e = Invalid_YANG_error_tag
      end)
  /\ (if t0 <? 4 then forall r, errtype_set r (errtype_String t0) = (t0, None)
      else errtype_String t0 = "")
  /\ (if t0 <? 19 then forall r, ncerrtag_set r (ncerrtag_String t0) = (t0, None)
      else ncerrtag_String t0 = "")
  /\ (if t0 <? 3 then forall r, yerrtag_set r (yerrtag_String t0) = (t0, None)
      else yerrtag_String t0 = "").
Proof.
  assert (forall (m : gmap string N) (l : list (string * N)) (bound : N),
            m = list_to_map l -> NoDup (map_to_list m).*2 ->
            Forall (fun kv => snd kv < bound) l ->
            forall s v, m !! s = Some v -> map_key_of m v = s /\ v < bound) as Hset.
  { intros m l bound -> Hnd Hb s v Hs. split; [by apply map_key_of_lookup|].
    apply elem_of_list_to_map_2 in Hs. rewrite Forall_forall in Hb.
    apply (Hb (s, v) Hs). }
  assert (forall (m : gmap string N) (bound : N),
            (forall s v, m !! s = Some v -> v < bound) ->
            forall v, bound <= v -> map_key_of m v = "") as Hout.
  { intros m bound Hb v Hv. apply map_key_of_absent. intros s Hs.
    specialize (Hb s v Hs). lia. }
  assert (NoDup (map_to_list errtypemap).*2) as N1
    by (apply (bool_decide_unpack _); vm_compute; exact I).
  assert (NoDup (map_to_list ncerrtagmap).*2) as N2
    by (apply (bool_decide_unpack _); vm_compute; exact I).
  assert (NoDup (map_to_list errtagmap).*2) as N3
    by (apply (bool_decide_unpack _); vm_compute; exact I).
  pose proof (Hset errtypemap _ 4 eq_refl N1
                ltac:(repeat constructor)) as S1.
  pose proof (Hset ncerrtagmap _ 19 eq_refl N2
                ltac:(repeat constructor)) as S2.
  pose proof (Hset errtagmap _ 3 eq_refl N3
                ltac:(repeat constructor)) as S3.
  split; [|split; [|split; [|split; [|split]]]].
  - unfold errtype_set. destruct (errtypemap !! name) as [v|] eqn:E; [|done].
    unfold errtype_String. by apply S1.
  - unfold ncerrtag_set. destruct (ncerrtagmap !! name) as [v|] eqn:E; [|done].
    unfold ncerrtag_String. by apply S2.
  - unfold yerrtag_set. destruct (errtagmap !! name) as [v|] eqn:E; [|done].
    unfold yerrtag_String. by apply S3.
  - destruct (N.ltb_spec t0 4) as [Hlt|Hge].
    + assert (In t0 [0; 1; 2; 3]) as Hin by (cbn; lia).
      cbn in Hin. repeat (destruct Hin as [<-|Hin]; [intros r; vm_compute; reflexivity|]).
      destruct Hin.
    + unfold errtype_String. apply (Hout errtypemap 4); [|exact Hge].
      intros s v Hs. by apply (S1 s v).
  - destruct (N.ltb_spec t0 19) as [Hlt|Hge].
    + assert (In t0 [0; 1; 2; 3; 4; 5; 6; 7; 8; 9; 10; 11; 12; 13; 14; 15; 16; 17; 18])
        as Hin by (cbn; lia).
      cbn in Hin. repeat (destruct Hin as [<-|Hin]; [intros r; vm_compute; reflexivity|]).
      destruct Hin.
    + unfold ncerrtag_String. apply (Hout ncerrtagmap 19); [|exact Hge].
      intros s v Hs. by apply (S2 s v).
  - destruct (N.ltb_spec t0 3) as [Hlt|Hge].
    + assert (In t0 [0; 1; 2]) as Hin by (cbn; lia).
      cbn in Hin. repeat (destruct Hin as [<-|Hin]; [intros r; vm_compute; reflexivity|]).
      destruct Hin.
    + unfold yerrtag_String. apply (Hout errtagmap 3); [|exact Hge].
      intros s v Hs. by apply (S3 s v).
Qed.

(** ** Namespaces and modules *)

Lemma modmap_Some (m ns : string) :
  modmap !! m = Some ns ->
  (m = netconf_module /\ ns = netconf_namespace)
  \/ (m = yang_module /\ ns = yang_namespace)
  \/ (m = vyattaModule /\ ns = VyattaNamespace).
Proof.
  unfold modmap. intros H. apply elem_of_list_to_map_2 in H.
  rewrite !elem_of_cons, elem_of_nil in H.
  destruct H as [H|[H|[H|[]]]]; inversion H; auto.
Qed.

(** X2: [lookupModule] and [lookupNamespace] undo each other on the
    three namespaces and the three module names of the table and on
    every string that is neither; translating a namespace to a module
    and back fails to return it exactly when the namespace is itself one
    of the module names, and translating a module to a namespace and
    back fails exactly when the module is itself one of the
    namespaces. *)
Theorem lookup_module_namespace_inverse (s : string) :
  (lookupNamespace (lookupModule s) = s <-> known_module s = false)
  /\ (lookupModule (lookupNamespace s) = s <-> known_namespace s = false)
  /\ (known_namespace s = true -> known_module (lookupModule s) = true)
  /\ (known_module s = true -> known_namespace (lookupNamespace s) = true).
Proof.
  unfold known_module, known_namespace, lookupModule, lookupNamespace.
  destruct (nsmap !! s) as [m|] eqn:Hn; destruct (modmap !! s) as [ns|] eqn:Hm.
  - destruct (nsmap_Some _ _ Hn) as [[-> ->]|[[-> ->]|[-> ->]]];
      vm_compute in Hm; discriminate.
  - destruct (nsmap_Some _ _ Hn) as [[-> ->]|[[-> ->]|[-> ->]]];
      vm_compute; repeat split; intros; congruence.
  - destruct (modmap_Some _ _ Hm) as [[-> ->]|[[-> ->]|[-> ->]]];
      vm_compute; repeat split; intros; congruence.
  - cbn beta iota. rewrite ?Hn, ?Hm.
    rewrite !bool_decide_eq_false, !bool_decide_eq_true.
    repeat split; intros; try congruence;
      try (intros [? ?]; congruence);
      try (match goal with H : is_Some None |- _ => destruct H; congruence end).
Qed.

(** ** Looking a tag up *)

Lemma FindMgmtErrorTag_skip (l rest : MgmtErrorInfo) (ns name : string) :
  Forall (fun t => ~ tag_named ns name t) l ->
  FindMgmtErrorTag (l ++ rest) ns name = FindMgmtErrorTag rest ns name.
Proof.
  induction 1 as [|t l Ht _ IH]; [reflexivity|].
  cbn [app FindMgmtErrorTag]. rewrite IH.
  destruct (String.eqb_spec (Space (XMLName t)) ns) as [Hs|Hs]; [|reflexivity].
  destruct (String.eqb_spec (Local (XMLName t)) name) as [Hl|Hl]; [|reflexivity].
  exfalso. apply Ht. split; assumption.
Qed.

(** X3: [FindMgmtErrorTag] returns the value of the first tag with the
    namespace and the local name asked for, whatever follows it, and the
    empty string when no tag has them; a tag found with an empty value
    and a missing tag give the same result. *)
Theorem FindMgmtErrorTag_first (ns name : string) :
  (forall before t after,
     Forall (fun t' => ~ tag_named ns name t') before ->
     tag_named ns name t ->
     FindMgmtErrorTag (before ++ t :: after) ns name = Value t)
  /\ (forall info,
     Forall (fun t' => ~ tag_named ns name t') info ->
     FindMgmtErrorTag info ns name = "")
  /\ (forall before after,
     Forall (fun t' => ~ tag_named ns name t') before ->
     FindMgmtErrorTag (before ++ NewMgmtErrorInfoTag ns name "" :: after) ns name
     = FindMgmtErrorTag before ns name).
Proof.
  assert (forall before t after,
     Forall (fun t' => ~ tag_named ns name t') before ->
     tag_named ns name t ->
     FindMgmtErrorTag (before ++ t :: after) ns name = Value t) as Hfirst.
  { intros before t after Hb [Hs Hl]. rewrite (FindMgmtErrorTag_skip _ _ _ _ Hb).
    cbn [FindMgmtErrorTag]. rewrite Hs, Hl, !String.eqb_refl. reflexivity. }
  assert (forall info,
     Forall (fun t' => ~ tag_named ns name t') info ->
     FindMgmtErrorTag info ns name = "") as Hnone.
  { intros info Hi. rewrite <- (app_nil_r info).
    rewrite (FindMgmtErrorTag_skip _ _ _ _ Hi). reflexivity. }
  split; [exact Hfirst|]. split; [exact Hnone|].
  intros before after Hb. rewrite (Hfirst _ _ _ Hb); [|split; reflexivity].
  rewrite (Hnone _ Hb). reflexivity.
Qed.

Lemma FindMgmtErrorTag_visit (visit : list (string * string)) (k : string) :
  NoDup visit.*1 ->
  FindMgmtErrorTag
    (map (fun kv => NewMgmtErrorInfoTag VyattaNamespace (fst kv) (snd kv)) visit)
    VyattaNamespace k
  = match list_find (fun kv => fst kv = k) visit with
    | Some (_, kv) => snd kv
    | None => ""
    end.
Proof.
  induction visit as [|[k' v'] visit IH]; intros Hnd; [reflexivity|].
  cbn [fmap list_fmap fst] in Hnd. apply NoDup_cons in Hnd as [_ Hnd].
  cbn [map FindMgmtErrorTag NewMgmtErrorInfoTag XMLName Space Local Value fst snd list_find].
  rewrite String.eqb_refl. cbn [andb].
  destruct (String.eqb_spec k' k) as [->|Hne].
  - rewrite decide_True; reflexivity.
  - rewrite decide_False; [|exact Hne]. rewrite (IH Hnd).
    destruct (list_find _ visit) as [[i kv]|]; reflexivity.
Qed.

(** X6: the tags [NewPathAmbiguousError] builds hold the map: there is
    one tag for each entry, and [FindMgmtErrorTag] with the vendor
    namespace and a name returns the help text the map has for the name,
    or the empty string for a name that is not in the map, in whatever
    order the map was visited. *)
Theorem PathAmbiguousError_Info_lookup
    (pathutil_Pathstr : list string -> string) (path : list string)
    (matches : gmap string string) (visit : list (string * string)) :
  range_of matches visit ->
  exists t,
    NewPathAmbiguousError pathutil_Pathstr path visit = OK t
    /\ length (Info (rec t)) = size matches
    /\ forall name,
         FindMgmtErrorTag (Info (rec t)) VyattaNamespace name
         = default "" (matches !! name).
Proof.
  unfold range_of. intros Hv. eexists. split; [apply NewPathAmbiguousError_record|].
  cbn [rec createPathAmbigError Info]. split.
  - rewrite length_map, Hv. apply length_map_to_list.
  - intros name.
    assert (NoDup visit.*1) as Hnd by (rewrite Hv; apply NoDup_fst_map_to_list).
    rewrite (FindMgmtErrorTag_visit visit name Hnd).
    destruct (list_find (fun kv => kv.1 = name) visit) as [[i [k v]]|] eqn:Hf.
    + apply list_find_Some in Hf as (Hi & Hk & _). cbn [fst] in Hk. subst k.
      apply list_elem_of_lookup_2 in Hi. rewrite Hv in Hi.
      apply elem_of_map_to_list in Hi. rewrite Hi. reflexivity.
    + destruct (matches !! name) as [v|] eqn:Hm; [|reflexivity].
      exfalso. apply elem_of_map_to_list in Hm. rewrite <- Hv in Hm.
      apply list_find_None in Hf. rewrite Forall_forall in Hf.
      apply (Hf (name, v) Hm). reflexivity.
Qed.

Lemma PathAmbiguousError_Info_lookup_witness :
  let matches : gmap string string :=
    list_to_map [("show", "Show the configuration"); ("set", "Set a value")] in
  exists t,
    NewPathAmbiguousError Pathstr_slashes [] (reverse (map_to_list matches)) = OK t
    /\ length (Info (rec t)) = size matches
    /\ forall name,
         FindMgmtErrorTag (Info (rec t)) VyattaNamespace name
         = default "" (matches !! name).
Proof.
  intros matches.
  apply (PathAmbiguousError_Info_lookup Pathstr_slashes [] matches
           (reverse (map_to_list matches))).
  unfold range_of. apply reverse_Permutation.
Defined.

(** ** Decoding a tag *)

Lemma json_members_to_map_strings (members : list (string * string)) (m : gmap string string) :
  json_members_to_map (map (fun kv => (fst kv, JString (snd kv))) members) m
  = OK (foldl (fun acc kv => <[fst kv := snd kv]> acc) m members).
Proof.
  revert m. induction members as [|[k v] members IH]; intros m; [reflexivity|].
  cbn [map json_members_to_map json_Unmarshal_string mbind result_bind fst snd foldl].
  apply IH.
Qed.

Lemma dom_foldl_insert (members : list (string * string)) (m : gmap string string) :
  dom (foldl (fun acc kv => <[fst kv := snd kv]> acc) m members)
  = list_to_set members.*1 ∪ dom m.
Proof.
  revert m. induction members as [|[k v] members IH]; intros m.
  - cbn. set_solver.
  - cbn [foldl fmap list_fmap fst snd list_to_set]. rewrite IH, dom_insert_L. set_solver.
Qed.

Lemma size_list_to_set_remove_dups (l : list string) :
  size (list_to_set l : gset string) = length (remove_dups l).
Proof.
  rewrite <- (size_list_to_set (C := gset string) (remove_dups l));
    [|apply NoDup_remove_dups].
  f_equal. apply set_eq. intros x. rewrite !elem_of_list_to_set, elem_of_remove_dups.
  reflexivity.
Qed.

(** X4: [MgmtErrorInfoTag.UnmarshalJSON] accepts an object of string
    members exactly when its members have one distinct key; it then
    holds the value of the last member.  An object without member or
    with two different keys, and the value null, are reported as a
    malformed error-info tag. *)
Theorem UnmarshalJSON_one_key (recv : MgmtErrorInfoTag) (members : list (string * string)) :
  let doc := JObject (map (fun kv => (fst kv, JString (snd kv))) members) in
  (length (remove_dups members.*1) = 1%nat ->
   exists t, MgmtErrorInfoTag_UnmarshalJSON recv doc = OK t
             /\ Value t = snd (List.last members ("", "")))
  /\ (length (remove_dups members.*1) <> 1%nat ->
      MgmtErrorInfoTag_UnmarshalJSON recv doc = Err malformed_error_info_tag)
  /\ MgmtErrorInfoTag_UnmarshalJSON recv JNull = Err malformed_error_info_tag.
Proof.
  intros doc. unfold doc, MgmtErrorInfoTag_UnmarshalJSON, json_Unmarshal_map.
  rewrite json_members_to_map_strings. cbn [mbind result_bind].
  set (M := foldl (fun acc kv => <[fst kv := snd kv]> acc) ∅ members).
  assert (length (map_to_list M) = length (remove_dups members.*1)) as Hlen.
  { rewrite length_map_to_list, <- size_dom. unfold M. rewrite dom_foldl_insert, dom_empty_L.
    rewrite union_empty_r_L. apply size_list_to_set_remove_dups. }
  split; [|split].
  - intros H1. rewrite <- Hlen in H1.
    destruct (map_to_list M) as [|[k v] [|]] eqn:Hl; try discriminate H1.
    assert (v = snd (List.last members ("", ""))) as ->.
    { destruct (exists_last (l := members)) as (ms & [kl vl] & Hms).
      - intros ->. unfold M in Hl. cbn in Hl. rewrite map_to_list_empty in Hl.
        discriminate.
      - rewrite Hms, last_last. cbn [snd].
        assert (M !! kl = Some vl) as Hk.
        { unfold M. rewrite Hms, foldl_app. cbn [foldl fst snd].
          apply lookup_insert_eq. }
        apply elem_of_map_to_list in Hk. rewrite Hl in Hk.
        apply list_elem_of_singleton in Hk. by inversion Hk. }
    pose proof (Split_nonempty k ":"%char) as Hne.
    destruct (strings.Split k ":"%char) as [|s0 [|s1 [|s2 rest]]];
      [congruence|eexists; split; reflexivity..].
  - intros H1. rewrite <- Hlen in H1.
    destruct (map_to_list M) as [|[k v] [|]]; [reflexivity|by destruct H1|reflexivity].
  - reflexivity.
Qed.

Lemma UnmarshalJSON_one_key_witness :
  exists t,
    MgmtErrorInfoTag_UnmarshalJSON zeroInfoTag
      (JObject (map (fun kv => (fst kv, JString (snd kv)))
                  [("bad-element", "first"); ("bad-element", "second")]))
    = OK t
    /\ Value t = snd (List.last [("bad-element", "first"); ("bad-element", "second")]
                        ("", "")).
Proof.
  apply (UnmarshalJSON_one_key zeroInfoTag
           [("bad-element", "first"); ("bad-element", "second")]).
  vm_compute. reflexivity.
Defined.

(** ** The reverse classifier on any record *)

Ltac wraps_entry field :=
  let H := fresh "H" in
  intros ? ? H; cbn [snd field] in H; apply elem_of_list_to_map_2 in H;
  repeat (apply elem_of_cons in H as [[= -> ->]|H];
          [eexists; intros ?; reflexivity|]);
  by apply elem_of_nil in H.

(** Every function of the three catalogs wraps its argument in one
    wrapper type. *)
Lemma ncErrTable_wraps (tag : ncerrtag) (entry : ncErrTag) (a : errtype)
    (fn : MgmtError -> TypedError) :
  ncErrTable !! tag = Some entry -> nc_typ entry !! a = Some fn ->
  exists k, forall e, fn e = {| kind := k; rec := e |}.
Proof.
  intros H1. apply elem_of_list_to_map_2 in H1. revert a fn.
  change entry with (snd (tag, entry)). revert H1.
  generalize (tag, entry). clear tag entry.
  refine (proj1 (Forall_forall (fun p => forall a fn,
    nc_typ (snd p) !! a = Some fn ->
    exists k, forall e, fn e = {| kind := k; rec := e |}) _) _).
  repeat (apply List.Forall_cons; [wraps_entry nc_typ|]). apply List.Forall_nil.
Qed.

Lemma yangErrTable_wraps (tag : yerrtag) (entry : yangErrTag) (a : yerrapptagid)
    (fn : MgmtError -> TypedError) :
  yangErrTable !! tag = Some entry -> y_apptag entry !! a = Some fn ->
  exists k, forall e, fn e = {| kind := k; rec := e |}.
Proof.
  intros H1. apply elem_of_list_to_map_2 in H1. revert a fn.
  change entry with (snd (tag, entry)). revert H1.
  generalize (tag, entry). clear tag entry.
  refine (proj1 (Forall_forall (fun p => forall a fn,
    y_apptag (snd p) !! a = Some fn ->
    exists k, forall e, fn e = {| kind := k; rec := e |}) _) _).
  repeat (apply List.Forall_cons; [wraps_entry y_apptag|]). apply List.Forall_nil.
Qed.

Lemma vyErrTable_wraps (tag : vyErrTag) (entry : vyError) (a : vyErrAppTagId)
    (fn : MgmtError -> TypedError) :
  vyErrTable !! tag = Some entry -> vy_apptag entry !! a = Some fn ->
  exists k, forall e, fn e = {| kind := k; rec := e |}.
Proof.
  intros H1. apply elem_of_list_to_map_2 in H1. revert a fn.
  change entry with (snd (tag, entry)). revert H1.
  generalize (tag, entry). clear tag entry.
  refine (proj1 (Forall_forall (fun p => forall a fn,
    vy_apptag (snd p) !! a = Some fn ->
    exists k, forall e, fn e = {| kind := k; rec := e |}) _) _).
  repeat (apply List.Forall_cons; [wraps_entry vy_apptag|]). apply List.Forall_nil.
Qed.

(** The three lookups depend on the tag, the app-tag and the type only,
    and return the record they were given. *)
Lemma getNetconfError_fields (e1 e2 : MgmtError) :
  Tag e1 = Tag e2 -> Typ e1 = Typ e2 ->
  match getNetconfError e1, getNetconfError e2 with
  | Some t1, Some t2 => kind t1 = kind t2 /\ rec t1 = e1 /\ rec t2 = e2
  | None, None => True
  | _, _ => False
  end.
Proof.
  intros Ht Hy. unfold getNetconfError. rewrite Ht, Hy.
  destruct (ncerrtagmap !! Tag e2) as [tag|]; [|exact I].
  destruct (ncErrTable !! tag) as [entry|] eqn:E1; [|exact I].
  destruct (errtypemap !! Typ e2) as [ty|]; [|exact I].
  destruct (nc_typ entry !! ty) as [fn|] eqn:E2; [|exact I].
  destruct (ncErrTable_wraps _ _ _ _ E1 E2) as [k Hk].
  unfold callCreate. rewrite !Hk. auto.
Qed.

Lemma getYangError_fields (e1 e2 : MgmtError) :
  Tag e1 = Tag e2 -> AppTag e1 = AppTag e2 ->
  match getYangError e1, getYangError e2 with
  | Some t1, Some t2 => kind t1 = kind t2 /\ rec t1 = e1 /\ rec t2 = e2
  | None, None => True
  | _, _ => False
  end.
Proof.
  intros Ht Ha. unfold getYangError. rewrite Ht, Ha.
  destruct (errtagmap !! Tag e2) as [tag|]; [|exact I].
  destruct (yangErrTable !! tag) as [entry|] eqn:E1; [|exact I].
  destruct (yerrapptagmap !! AppTag e2) as [a|]; [|exact I].
  destruct (y_apptag entry !! a) as [fn|] eqn:E2; [|exact I].
  destruct (yangErrTable_wraps _ _ _ _ E1 E2) as [k Hk].
  unfold callCreate. rewrite !Hk. auto.
Qed.

Lemma getVyattaError_fields (e1 e2 : MgmtError) :
  Tag e1 = Tag e2 -> AppTag e1 = AppTag e2 ->
  match getVyattaError e1, getVyattaError e2 with
  | Some t1, Some t2 => kind t1 = kind t2 /\ rec t1 = e1 /\ rec t2 = e2
  | None, None => True
  | _, _ => False
  end.
Proof.
  intros Ht Ha. unfold getVyattaError. rewrite Ht, Ha.
  destruct (vyErrTagMap !! Tag e2) as [tag|]; [|exact I].
  destruct (vyErrTable !! tag) as [entry|] eqn:E1; [|exact I].
  destruct (vyErrAppTagMap !! AppTag e2) as [a|]; [|exact I].
  destruct (vy_apptag entry !! a) as [fn|] eqn:E2; [|exact I].
  destruct (vyErrTable_wraps _ _ _ _ E1 E2) as [k Hk].
  unfold callCreate. rewrite !Hk. auto.
Qed.

(** X5: the reverse classifier never changes the record it is given,
    and the wrapper type it chooses, or its giving none, depends on the
    tag, the app-tag and the type of the record only: severity, path,
    message and info play no part. *)
Theorem classify_by_three_fields (e1 e2 : MgmtError) :
  Tag e1 = Tag e2 -> AppTag e1 = AppTag e2 -> Typ e1 = Typ e2 ->
  error_record (classify e1) = Some e1
  /\ error_kind (classify e1) = error_kind (classify e2).
Proof.
  intros Ht Ha Hy. unfold classify.
  pose proof (getVyattaError_fields e1 e2 Ht Ha) as Hv.
  pose proof (getYangError_fields e1 e2 Ht Ha) as Hyg.
  pose proof (getNetconfError_fields e1 e2 Ht Hy) as Hn.
  destruct (getVyattaError e1) as [v1|], (getVyattaError e2) as [v2|];
    [|destruct Hv|destruct Hv|].
  { destruct Hv as (Hk & Hr & _).
    cbn [error_record error_kind]. rewrite Hk, Hr. split; reflexivity. }
  destruct (getYangError e1) as [y1|], (getYangError e2) as [y2|];
    [|destruct Hyg|destruct Hyg|].
  { destruct Hyg as (Hk & Hr & _).
    cbn [error_record error_kind]. rewrite Hk, Hr. split; reflexivity. }
  destruct (getNetconfError e1) as [n1|], (getNetconfError e2) as [n2|];
    [|destruct Hn|destruct Hn|].
  { destruct Hn as (Hk & Hr & _).
    cbn [error_record error_kind]. rewrite Hk, Hr. split; reflexivity. }
  cbn [error_record error_kind]. split; reflexivity.
Qed.

Lemma classify_by_three_fields_witness :
  let e1 := {| Name := rpc_error_name; Typ := "application"; Tag := "data-missing";
               Severity := "error"; AppTag := "instance-required"; Path := "/a";
               Message := "m"; Info := [] |} in
  let e2 := {| Name := {| Space := ""; Local := "" |}; Typ := "application";
               Tag := "data-missing"; Severity := "warning";
               AppTag := "instance-required"; Path := "";
               Message := ""; Info := [NewMgmtErrorInfoTag "" "x" "y"] |} in
  error_record (classify e1) = Some e1
  /\ error_kind (classify e1) = error_kind (classify e2).
Proof.
  intros e1 e2. apply (classify_by_three_fields e1 e2); reflexivity.
Defined.

(** ** What the constructors build *)

(** The reverse classifier on the record of a constructor. *)
Lemma build_classify (Pathstr : list string -> string) (c : Ctor) :
  exists t,
    build Pathstr c = OK t
    /\ classify (rec t) = ETyped {| kind := reclassified (kind t); rec := rec t |}.
Proof.
  destruct c; eexists; (split; [vm_compute; reflexivity|]); vm_compute; reflexivity.
Qed.

(** X7: every public constructor returns an error whose record the
    reverse classifier gives back unchanged, in the wrapper type of the
    constructor, with two exceptions: the record of
    [NewLeafrefMismatchError] is classified as an InstanceRequiredError
    and the record of [NewMissingChoiceError] as an
    OperationFailedApplicationError. *)
Theorem constructed_error_reclassified (pathutil_Pathstr : list string -> string) (c : Ctor) :
  exists t,
    build pathutil_Pathstr c = OK t
    /\ classify (rec t) = ETyped {| kind := reclassified (kind t); rec := rec t |}.
Proof. exact (build_classify pathutil_Pathstr c). Qed.

(** X8: every public constructor returns an error with the rpc-error
    name, the severity error, one of the four type names and a tag name
    of the base protocol. *)
Theorem constructed_error_fields (pathutil_Pathstr : list string -> string) (c : Ctor) :
  exists t,
    build pathutil_Pathstr c = OK t
    /\ Name (rec t) = rpc_error_name
    /\ Severity (rec t) = "error"
    /\ is_Some (errtypemap !! Typ (rec t))
    /\ is_Some (ncerrtagmap !! Tag (rec t)).
Proof.
  destruct c; eexists; (split; [vm_compute; reflexivity|]);
    (split; [reflexivity|]); (split; [reflexivity|]);
    split; eexists; vm_compute; reflexivity.
Qed.

(** ** The JSON encoding of any record *)

Lemma forallb_Forall {A} (f : A -> bool) (l : list A) :
  forallb f l = true -> Forall (fun x => f x = true) l.
Proof.
  induction l as [|x l IH]; cbn [forallb]; intros H; [constructor|].
  apply andb_prop in H as [Hx Hl]. constructor; [exact Hx|exact (IH Hl)].
Qed.

Lemma record_json_ok_parts (e : MgmtError) :
  record_json_ok e = true ->
  record_utf8_ok e = true /\ Forall (fun i => tag_json_ok i = true) (Info e).
Proof.
  unfold record_json_ok. intros H. apply andb_prop in H as [Hu Ht].
  split; [exact Hu|exact (forallb_Forall _ _ Ht)].
Qed.



(** ** Decoding a list *)

Lemma json_Unmarshal_ptrs_records (rs : list MgmtError) :
  Forall (fun r => record_json_ok r = true) rs ->
  json_Unmarshal_ptrs [] (map MgmtError_json rs)
  = OK (map (fun r => Some (set_Name r {| Space := ""; Local := "" |})) rs).
Proof.
  induction 1 as [|r rs Hr _ IH]; [reflexivity|].
  cbn [map].
  change (json_Unmarshal_ptrs [] (MgmtError_json r :: map MgmtError_json rs))
    with (p ← Some <$> json_Unmarshal_MgmtError
                         (set_Name zeroMgmtError {| Space := ""; Local := "" |})
                         (MgmtError_json r);
          ps ← json_Unmarshal_ptrs [] (map MgmtError_json rs);
          OK (p :: ps)).
  apply record_json_ok_parts in Hr as [Hu Hr].
  rewrite (MgmtError_json_decode _ r Hu Hr), IH. reflexivity.
Qed.

(** The reverse classifier returns a wrapper or the record it was
    given. *)
Lemma classify_typed_or_plain (r : MgmtError) :
  match classify r with
  | ETyped _ | EMgmt _ => True
  | _ => False
  end.
Proof.
  unfold classify.
  destruct (getVyattaError r); [exact I|].
  destruct (getYangError r); [exact I|].
  destruct (getNetconfError r); exact I.
Qed.

Lemma mkMgmtError_classify (r : MgmtError) :
  mkMgmtError (classify (setXMLName r)) = OK (decoded_member r).
Proof.
  unfold decoded_member.
  pose proof (classify_typed_or_plain (setXMLName r)) as Hc.
  destruct (classify (setXMLName r)) as [t|m|f| |];
    [reflexivity|vm_compute; reflexivity|destruct Hc..].
Qed.

Lemma UnmarshalJSON_loop_records (n : xml_Name) (rs : list MgmtError) (l : list error) :
  UnmarshalJSON_loop {| errs := l |} (map (fun r => Some (set_Name r n)) rs)
  = OK {| errs := l ++ map decoded_member rs |}.
Proof.
  revert l. induction rs as [|r rs IH]; intros l.
  - cbn [map UnmarshalJSON_loop]. rewrite app_nil_r. reflexivity.
  - cbn [map UnmarshalJSON_loop MgmtErrorListAppend].
    change (setXMLName (set_Name r n)) with (setXMLName r).
    rewrite mkMgmtError_classify. cbn [mbind result_bind errs].
    rewrite IH, <- app_assoc. reflexivity.
Qed.

Lemma UnmarshalJSON_decoded (rs : list MgmtError) :
  Forall (fun r => record_json_ok r = true) rs ->
  MgmtErrorList_UnmarshalJSON (error_list_json (map MgmtError_json rs))
  = OK {| errs := map decoded_member rs |}.
Proof.
  intros H. unfold MgmtErrorList_UnmarshalJSON, error_list_json.
  cbn [json_Unmarshal_ErrorList string_lower].
  change (String.eqb (string_lower "error-list") "error-list") with true. cbn iota.
  rewrite (json_Unmarshal_ptrs_records rs H). cbn [mbind result_bind json_Unmarshal_ErrorList].
  apply (UnmarshalJSON_loop_records _ rs []).
Qed.



Lemma tag_names_base (s : string) :
  ncerrtagmap !! s = None -> errtagmap !! s = None /\ vyErrTagMap !! s = None.
Proof.
  intros H. split.
  - destruct (errtagmap !! s) as [v|] eqn:E; [exfalso|reflexivity].
    apply elem_of_list_to_map_2 in E.
    repeat (apply elem_of_cons in E as [[= -> ->]|E];
            [vm_compute in H; discriminate H|]).
    by apply elem_of_nil in E.
  - destruct (vyErrTagMap !! s) as [v|] eqn:E; [exfalso|reflexivity].
    apply elem_of_list_to_map_2 in E.
    repeat (apply elem_of_cons in E as [[= -> ->]|E];
            [vm_compute in H; discriminate H|]).
    by apply elem_of_nil in E.
Qed.

Lemma UnmarshalJSON_loop_step (e : MgmtErrorList) (r : MgmtError)
    (rest : list (option MgmtError)) :
  UnmarshalJSON_loop e (Some r :: rest)
  = UnmarshalJSON_loop {| errs := errs e ++ [decoded_member r] |} rest.
Proof.
  cbn [UnmarshalJSON_loop MgmtErrorListAppend]. rewrite mkMgmtError_classify.
  reflexivity.
Qed.

(** X11: a record whose tag is not one of the tag names of the base
    protocol is listed by no catalog: the reverse classifier returns it
    as a plain record, [mkMgmtError] makes of that the generic
    operation-failed error with only its message and its path, and that
    is the member the loop of [MgmtErrorList.UnmarshalJSON] appends for
    it; decoding the error-list that holds its encoding gives that
    member, so type, tag, severity, app-tag and info are not kept. *)
Theorem unknown_tag_member_generic (r : MgmtError) (l : MgmtErrorList) :
  ncerrtagmap !! Tag r = None ->
  classify (setXMLName r) = EMgmt (setXMLName r)
  /\ mkMgmtError (classify (setXMLName r))
     = OK (generic_operation_failed (Message r) (Path r))
  /\ UnmarshalJSON_loop l [Some r]
     = OK {| errs := errs l ++ [generic_operation_failed (Message r) (Path r)] |}
  /\ (record_json_ok r = true ->
      MgmtErrorList_UnmarshalJSON (error_list_json [MgmtError_json r])
      = OK {| errs := [generic_operation_failed (Message r) (Path r)] |}).
Proof.
  intros H. destruct (tag_names_base _ H) as [Hy Hv].
  assert (classify (setXMLName r) = EMgmt (setXMLName r)) as Hc.
  { unfold classify, getVyattaError, getYangError, getNetconfError.
    change (Tag (setXMLName r)) with (Tag r). rewrite Hv, Hy, H. reflexivity. }
  assert (mkMgmtError (classify (setXMLName r))
          = OK (generic_operation_failed (Message r) (Path r))) as Hm.
  { rewrite Hc. vm_compute. reflexivity. }
  assert (decoded_member r = generic_operation_failed (Message r) (Path r)) as Hd.
  { pose proof (mkMgmtError_classify r) as Hk. rewrite Hm in Hk. by injection Hk. }
  split; [exact Hc|]. split; [exact Hm|]. split.
  - rewrite UnmarshalJSON_loop_step, Hd. reflexivity.
  - intros Hr. change [MgmtError_json r] with (map MgmtError_json [r]).
    rewrite (UnmarshalJSON_decoded [r]); [|by constructor].
    cbn [map]. rewrite Hd. reflexivity.
Qed.

Lemma unknown_tag_member_generic_witness :
  let r := {| Name := {| Space := ""; Local := "" |}; Typ := "application";
              Tag := "no-such-tag"; Severity := "warning"; AppTag := "exec-failed";
              Path := "/b"; Message := "m2";
              Info := [NewMgmtErrorInfoTag "" "k" "v"] |} in
  classify (setXMLName r) = EMgmt (setXMLName r)
  /\ mkMgmtError (classify (setXMLName r)) = OK (generic_operation_failed "m2" "/b")
  /\ UnmarshalJSON_loop {| errs := [] |} [Some r]
     = OK {| errs := [] ++ [generic_operation_failed "m2" "/b"] |}
  /\ (record_json_ok r = true ->
      MgmtErrorList_UnmarshalJSON (error_list_json [MgmtError_json r])
      = OK {| errs := [generic_operation_failed "m2" "/b"] |}).
Proof.
  intros r. apply (unknown_tag_member_generic r {| errs := [] |}). reflexivity.
Defined.

Lemma decoded_member_typed (r : MgmtError) : is_typed (decoded_member r) = true.
Proof.
  unfold decoded_member.
  pose proof (classify_typed_or_plain (setXMLName r)) as Hc.
  destruct (classify (setXMLName r)) as [t|m|f| |];
    [reflexivity|reflexivity|destruct Hc..].
Qed.

Lemma UnmarshalJSON_loop_typed (ps : list (option MgmtError)) (e l : MgmtErrorList) :
  Forall (fun x => is_typed x = true) (errs e) ->
  UnmarshalJSON_loop e ps = OK l ->
  Forall (fun x => is_typed x = true) (errs l).
Proof.
  revert e. induction ps as [|[r|] ps IH]; intros e He H.
  - cbn [UnmarshalJSON_loop] in H. injection H as <-. exact He.
  - rewrite UnmarshalJSON_loop_step in H. refine (IH _ _ H).
    cbn [errs]. apply Forall_app. split; [exact He|].
    constructor; [apply decoded_member_typed|constructor].
  - discriminate H.
Qed.

(** X12: every member of a list that [MgmtErrorList.UnmarshalJSON]
    returns is a wrapper type of the package; no plain record and no
    other error value is ever a member of a decoded list. *)
Theorem UnmarshalJSON_members_typed (value : json) (l : MgmtErrorList) :
  MgmtErrorList_UnmarshalJSON value = OK l ->
  Forall (fun e => is_typed e = true) (errs l).
Proof.
  unfold MgmtErrorList_UnmarshalJSON. intros H.
  destruct value as [| | | | |members]; try discriminate H.
  - injection H as <-. constructor.
  - destruct (json_Unmarshal_ErrorList [] members) as [ps| |]; try discriminate H.
    cbn [mbind result_bind] in H.
    apply (UnmarshalJSON_loop_typed ps {| errs := [] |} l); [constructor|exact H].
Qed.

Lemma UnmarshalJSON_members_typed_witness :
  Forall (fun e => is_typed e = true)
    (errs {| errs := [generic_operation_failed "m" "/p"] |}).
Proof.
  apply (UnmarshalJSON_members_typed
           (error_list_json [JObject [("error-tag", JString "unheard-of");
                                      ("error-path", JString "/p");
                                      ("error-message", JString "m")]])).
  vm_compute. reflexivity.
Defined.




(** ** A null member *)

Lemma json_Unmarshal_ptrs_null (elems : list json) (old ps : list (option MgmtError)) :
  json_Unmarshal_ptrs old elems = OK ps -> (None ∈ ps <-> JNull ∈ elems).
Proof.
  revert old ps. induction elems as [|j elems IH]; intros old ps H.
  - cbn [json_Unmarshal_ptrs] in H. injection H as <-.
    split; intros Hin; by apply elem_of_nil in Hin.
  - cbn [json_Unmarshal_ptrs] in H.
    destruct (json_Unmarshal_ptrs (tail old) elems) as [ps'| |] eqn:E.
    + specialize (IH _ _ E).
      destruct j; cbn [mbind result_bind fmap result_fmap] in H;
        try (destruct (json_Unmarshal_MgmtError _ _) as [r| |];
             cbn [mbind result_bind fmap result_fmap] in H; try discriminate H);
        injection H as <-; rewrite !elem_of_cons, IH;
        split; intros [Hd|Ht]; first [discriminate Hd | by right | by left].
    + destruct j; cbn [mbind result_bind fmap result_fmap] in H;
        try (destruct (json_Unmarshal_MgmtError _ _) as [r| |];
             cbn [mbind result_bind fmap result_fmap] in H); discriminate H.
    + destruct j; cbn [mbind result_bind fmap result_fmap] in H;
        try (destruct (json_Unmarshal_MgmtError _ _) as [r| |];
             cbn [mbind result_bind fmap result_fmap] in H); discriminate H.
Qed.

Lemma UnmarshalJSON_loop_Panic (ps : list (option MgmtError)) (e : MgmtErrorList) :
  UnmarshalJSON_loop e ps = Panic <-> None ∈ ps.
Proof.
  revert e. induction ps as [|[r|] ps IH]; intros e.
  - cbn [UnmarshalJSON_loop]. split; [discriminate|]. intros H. by apply elem_of_nil in H.
  - rewrite UnmarshalJSON_loop_step, IH, elem_of_cons.
    split; [by right|]. intros [H|H]; [discriminate H|exact H].
  - cbn [UnmarshalJSON_loop]. split; [intros _; by left|reflexivity].
Qed.

(** X14: when the elements of the error-list array decode,
    [MgmtErrorList.UnmarshalJSON] panics exactly when one of them is
    [null]: the nil pointer that stands for it is dereferenced by
    [setXMLName]. *)
Theorem UnmarshalJSON_null_member (elems : list json) (ps : list (option MgmtError)) :
  json_Unmarshal_ptrs [] elems = OK ps ->
  (MgmtErrorList_UnmarshalJSON (error_list_json elems) = Panic <-> JNull ∈ elems).
Proof.
  intros H. rewrite <- (json_Unmarshal_ptrs_null _ _ _ H).
  unfold MgmtErrorList_UnmarshalJSON, error_list_json.
  cbn [json_Unmarshal_ErrorList string_lower].
  change (String.eqb (string_lower "error-list") "error-list") with true. cbn iota.
  rewrite H. cbn [mbind result_bind json_Unmarshal_ErrorList].
  apply UnmarshalJSON_loop_Panic.
Qed.

Lemma UnmarshalJSON_null_member_witness :
  MgmtErrorList_UnmarshalJSON
    (error_list_json [JObject [("error-tag", JString "in-use")]; JNull]) = Panic
  <-> JNull ∈ [JObject [("error-tag", JString "in-use")]; JNull].
Proof.
  apply (UnmarshalJSON_null_member
           [JObject [("error-tag", JString "in-use")]; JNull]
           [Some (set_Tag zeroMgmtError "in-use"); None]).
  reflexivity.
Defined.

(** ** Appending *)






(** ** Rendering a list *)

Lemma CustomError_loop_closed (fmtFn : error -> result string) (l : list error)
    (ss : list string) (i : nat) :
  Forall2 (fun e s => fmtFn e = OK s) l ss ->
  CustomError_loop fmtFn i l = OK (write_joined newline i ss).
Proof.
  intros H. revert i. induction H as [|e s l ss He _ IH]; intros i; [reflexivity|].
  cbn [CustomError_loop write_joined]. rewrite He, IH. reflexivity.
Qed.

Lemma Error_loop_CustomError_loop (natsort_Sort : list string -> list string)
    (l : list error) (i : nat) :
  Error_loop natsort_Sort i l = CustomError_loop (error_Error natsort_Sort) i l.
Proof.
  revert i. induction l as [|e l IH]; intros i; [reflexivity|].
  cbn [Error_loop CustomError_loop]. rewrite IH. reflexivity.
Qed.

Lemma error_Error_not_Err (natsort_Sort : list string -> list string) (e : error)
    (x : goerr) :
  error_Error natsort_Sort e <> Err x.
Proof.
  destruct e as [[k r]|m|f| |]; [|discriminate..].
  unfold error_Error, TypedError_Error, missingElemErrorString, unknownElemErrorString.
  cbn [kind rec]. destruct k; try discriminate; destruct (Info r); discriminate.
Qed.

Lemma Error_loop_Panic (natsort_Sort : list string -> list string) (l : list error)
    (i : nat) :
  Error_loop natsort_Sort i l = Panic
  <-> Exists (fun e => error_Error natsort_Sort e = Panic) l.
Proof.
  revert i. induction l as [|e l IH]; intros i.
  - cbn [Error_loop]. split; [discriminate|]. intros H. inversion H.
  - cbn [Error_loop]. rewrite Exists_cons, <- (IH (S i)).
    pose proof (error_Error_not_Err natsort_Sort e) as Hne.
    destruct (error_Error natsort_Sort e) as [s|x|]; cbn [mbind result_bind].
    + destruct (Error_loop natsort_Sort (S i) l) as [r|x|]; cbn [mbind result_bind].
      * split; [discriminate|]. intros [H|H]; discriminate H.
      * split; [discriminate|]. intros [H|H]; discriminate H.
      * split; [intros _; by right|reflexivity].
    + exfalso. exact (Hne x eq_refl).
    + split; [intros _; by left|reflexivity].
Qed.

(** X16: [MgmtErrorList.Error] returns the strings of the members'
    [Error()] joined by new lines, the empty string for an empty list,
    and panics exactly when the [Error()] of a member panics;
    [CustomError] with a nil formatter is [Error], and with a formatter
    it returns the formatter's strings joined by new lines. *)
Theorem MgmtErrorList_Error_joined (natsort_Sort : list string -> list string) :
  (forall l ss,
     Forall2 (fun e s => error_Error natsort_Sort e = OK s) (errs l) ss ->
     MgmtErrorList_Error natsort_Sort l = OK (strings.Join ss newline))
  /\ (forall l,
     MgmtErrorList_Error natsort_Sort l = Panic
     <-> Exists (fun e => error_Error natsort_Sort e = Panic) (errs l))
  /\ (forall l,
     MgmtErrorList_CustomError natsort_Sort None l = MgmtErrorList_Error natsort_Sort l)
  /\ (forall (f : error -> string) l,
     MgmtErrorList_CustomError natsort_Sort (Some (fun e => OK (f e))) l
     = OK (strings.Join (map f (errs l)) newline)).
Proof.
  split; [|split; [|split]].
  - intros l ss H. unfold MgmtErrorList_Error.
    rewrite Error_loop_CustomError_loop, (CustomError_loop_closed _ _ ss 0 H).
    rewrite write_joined_Join. reflexivity.
  - intros l. apply Error_loop_Panic.
  - intros l. unfold MgmtErrorList_CustomError, MgmtErrorList_Error.
    symmetry. apply Error_loop_CustomError_loop.
  - intros f l. unfold MgmtErrorList_CustomError.
    rewrite (CustomError_loop_closed _ _ (map f (errs l)) 0).
    + rewrite write_joined_Join. reflexivity.
    + induction (errs l); constructor; [reflexivity|assumption].
Qed.

(** ** Error strings of the wrapper types *)

Lemma TrimPrefix_app (p s : string) : strings.TrimPrefix (p +:+ s) p = s.
Proof.
  unfold strings.TrimPrefix.
  assert (strings.TrimPrefix_opt (p +:+ s) p = Some s) as ->; [|reflexivity].
  induction p as [|c p IH]; [destruct s; reflexivity|].
  rewrite append_cons. cbn [strings.TrimPrefix_opt]. rewrite Ascii.eqb_refl. exact IH.
Qed.

(** X17: [Error()] of the error of [NewNonUniqueError], its Path set
    to [p] and built for two or more paths that lie under [p], lists the
    paths relative to [p], separated by a comma and a space, after the
    text Non-unique paths. *)
Theorem NonUniqueError_Error_relative (natsort_Sort : list string -> list string)
    (p : string) (rels : list string) :
  (2 <= length rels)%nat ->
  exists t,
    NewNonUniqueError (map (fun s => p +:+ "/" +:+ s) rels) = OK t
    /\ TypedError_Error natsort_Sort {| kind := kind t; rec := set_Path (rec t) p |}
       = OK ("Error: " +:+ p +:+ ": Non-unique paths " +:+ strings.Join rels ", ").
Proof.
  intros Hlen. eexists. split; [apply NewNonUniqueError_record|].
  unfold TypedError_Error, createNonUniqueError. cbn [kind rec]. f_equal.
  unfold NonUniqueError_Error, set_Path.
  cbn [Info Path Severity]. rewrite !length_map.
  destruct (length rels <? 2)%nat eqn:E; [apply Nat.ltb_lt in E; lia|].
  change (strings.Title "error") with "Error". unfold error_msg_separator.
  rewrite write_joined_Join, !map_map. cbn [Value NewMgmtErrorInfoTag].
  rewrite (map_ext _ (fun s => s)), map_id; [reflexivity|].
  intros s. rewrite <- append_assoc. apply TrimPrefix_app.
Qed.

Lemma NonUniqueError_Error_relative_witness :
  exists t,
    NewNonUniqueError (map (fun s => "/c/l" +:+ "/" +:+ s) ["a/b/c"; "a/d/c"]) = OK t
    /\ TypedError_Error bytewise_Sort {| kind := kind t; rec := set_Path (rec t) "/c/l" |}
       = OK ("Error: " +:+ "/c/l" +:+ ": Non-unique paths "
             +:+ strings.Join ["a/b/c"; "a/d/c"] ", ").
Proof.
  apply (NonUniqueError_Error_relative bytewise_Sort "/c/l" ["a/b/c"; "a/d/c"]).
  simpl. lia.
Defined.

(** X18: [Error()] of the errors of the four missing-element and
    unknown-element constructors, with Path set to [path], names the
    element under the path: the severity, the path, a slash, the bad
    element, then the message of the catalog; with an empty Path the
    element follows a single slash. *)
Theorem element_error_strings (natsort_Sort : list string -> list string)
    (badElem path : string) :
  Forall (fun r : result TypedError =>
            exists t,
              r = OK t
              /\ Info (rec t) = [bad_element_tag badElem]
              /\ TypedError_Error natsort_Sort
                   {| kind := kind t; rec := set_Path (rec t) path |}
                 = OK ("Error: " +:+ path +:+ "/" +:+ badElem +:+ ": " +:+ Message (rec t)))
    [NewMissingElementProtocolError badElem; NewMissingElementApplicationError badElem;
     NewUnknownElementProtocolError badElem; NewUnknownElementApplicationError badElem].
Proof.
  repeat (apply List.Forall_cons;
          [eexists; split; [vm_compute; reflexivity|]; split; [reflexivity|];
           unfold TypedError_Error; cbn [kind rec];
           unfold missingElemErrorString, unknownElemErrorString;
           cbn [Info set_Path Path Severity Message Value];
           rewrite if_empty_id; reflexivity|]).
  apply List.Forall_nil.
Qed.

(** X19: [errpath] prints a path of two or more elements as the
    elements but the last separated by spaces, then the last between
    brackets; a path of one element is printed between brackets, and the
    empty path as a pair of brackets. *)
Theorem errpath_shape :
  errpath [] = "[]"
  /\ (forall x, errpath [x] = "[" +:+ x +:+ "]")
  /\ (forall l v, l <> [] ->
        errpath (l ++ [v]) = strings.Join l " " +:+ " [" +:+ v +:+ "]").
Proof.
  split; [reflexivity|]. split; [reflexivity|].
  intros l v Hl. unfold errpath. rewrite length_app. cbn [length].
  destruct l as [|x l]; [congruence|]. cbn [length].
  destruct (S (length l) + 1 <? 2)%nat eqn:E; [apply Nat.ltb_lt in E; lia|].
  rewrite removelast_last, last_last. reflexivity.
Qed.

(** ** A member that cannot be encoded *)

Lemma MarshalJSON_loop_Err (pre post : list error) (e : error) (bs : list string)
    (x : goerr) (out : string) (i : nat) :
  Forall2 (fun e b => json_Marshal e = OK b) pre bs ->
  json_Marshal e = Err x ->
  MarshalJSON_loop out i (pre ++ e :: post) = Err x.
Proof.
  intros H He. revert out i. induction H as [|e' b pre bs He' _ IH]; intros out i.
  - cbn [app MarshalJSON_loop]. rewrite He. reflexivity.
  - cbn [app MarshalJSON_loop]. rewrite He'. cbn [mbind result_bind]. apply IH.
Qed.

Lemma MarshalXML_loop_Err (pre post : list error) (e : error)
    (xs : list (list xml_node)) (x : goerr) :
  Forall2 (fun e b => xml_Encode e = OK b) pre xs ->
  xml_Encode e = Err x ->
  MarshalXML_loop (pre ++ e :: post) = Err x.
Proof.
  intros H He. induction H as [|e' b pre xs He' _ IH].
  - cbn [app MarshalXML_loop]. rewrite He. reflexivity.
  - cbn [app MarshalXML_loop]. rewrite He', IH. reflexivity.
Qed.

(** X20: when a member of a list cannot be encoded, [MarshalJSON] and
    [MarshalXML] return the error of the first such member, whatever
    follows it in the list; the wrapper types and the plain record are
    always encoded, so only a value of another package can be such a
    member. *)
Theorem Marshal_first_failure :
  (forall pre e post bs x,
     Forall2 (fun e b => json_Marshal e = OK b) pre bs ->
     json_Marshal e = Err x ->
     MgmtErrorList_MarshalJSON {| errs := pre ++ e :: post |} = Err x)
  /\ (forall pre e post xs x,
     Forall2 (fun e b => xml_Encode e = OK b) pre xs ->
     xml_Encode e = Err x ->
     MgmtErrorList_MarshalXML {| errs := pre ++ e :: post |} = Err x)
  /\ (forall e, (forall b, json_Marshal e <> OK b) \/ (forall b, xml_Encode e <> OK b) ->
     exists f, e = EForeign f).
Proof.
  split; [|split].
  - intros pre e post bs x H He. unfold MgmtErrorList_MarshalJSON. cbn [errs].
    rewrite (MarshalJSON_loop_Err pre post e bs x _ _ H He). reflexivity.
  - intros pre e post xs x H He. unfold MgmtErrorList_MarshalXML. cbn [errs].
    apply (MarshalXML_loop_Err pre post e xs x H He).
  - intros [t|m|f| |] [H|H]; try (eexists; reflexivity);
      exfalso; eapply H; reflexivity.
Qed.

(** ** The string of a normalized member *)

(** X21: the member [mkMgmtError] makes of a value that is no marshaler
    renders as an error whatever the value was: for a plain record,
    [Error()] of the member is Error, a colon and a space, the path of
    the record with a colon and a space when it is not empty, and its
    message, the severity of the record playing no part; for an error
    value that is not [Formattable] it is Error, a colon and a space,
    and the string of the value. *)
Theorem normalized_member_string (natsort_Sort : list string -> list string) :
  (forall m, exists n,
     mkMgmtError (EMgmt m) = OK n
     /\ error_Error natsort_Sort n
        = OK ("Error: " +:+ (if String.eqb (Path m) "" then "" else Path m +:+ ": ")
              +:+ Message m))
  /\ (forall f, is_Marshaler (EForeign f) = false -> fe_Formattable f = None ->
      exists n,
        mkMgmtError (EForeign f) = OK n
        /\ error_Error natsort_Sort n = OK ("Error: " +:+ fe_Error f)).
Proof.
  split.
  - intros m. eexists. split; [vm_compute; reflexivity|].
    unfold error_Error, TypedError_Error. cbn [kind rec].
    unfold MgmtError_Error. cbn [Severity Path Message].
    rewrite if_empty_id. reflexivity.
  - intros f Hm Hf. cbn [is_Marshaler] in Hm. unfold mkMgmtError. rewrite Hm, Hf.
    eexists. split; [vm_compute; reflexivity|].
    unfold error_Error, TypedError_Error. cbn [kind rec].
    unfold MgmtError_Error. cbn [Severity Path Message].
    rewrite if_empty_id. reflexivity.
Qed.
